(** * ChatterBot: the Django storage adapter

    A shallow embedding of [chatterbot/storage/django_storage.py]
    ([DjangoStorageAdapter]) together with the part of the Django ORM that
    the adapter calls, and the properties of the storage contract that the
    adapter does, or does not, satisfy.

    Layout:
    - [Py]      Python values, [str.replace], [str.split], iteration,
                insertion-ordered dictionaries and exceptions;
    - [Schema]  the rows of the [Statement] model and the database state;
    - [Orm]     field lookups, [Q] objects, [filter], [exclude], [order_by],
                [first], [last], [create] and [delete];
    - [DjangoStorageAdapter]  the methods of the adapter, written in a
                state-and-exception monad over the database;
    - [Contract]  the vocabulary of the storage contract and the stores of
                its scenarios;
    - the properties. *)

From Stdlib Require Import String Ascii List ZArith Bool Lia Sorting.Sorted
  Sorting.Permutation DecimalString.
Import ListNotations.

Local Open Scope string_scope.
Local Open Scope list_scope.

(* ================================================================= *)
(** ** Python values, strings and dictionaries *)

Module Py.

(** Exceptions that the adapter, or the ORM underneath it, can raise.
    [NotModelled] marks a query that Django accepts but whose meaning is
    outside the lookups, values and relations embedded here. *)
Inductive exn : Type :=
| KeyError
| TypeError
| AttributeError
| FieldError
| OverflowError
| IntegrityError
| NotModelled.

Inductive result (A : Type) : Type :=
| Ok (a : A)
| Raise (e : exn).
Arguments Ok {A} a.
Arguments Raise {A} e.

Definition rbind {A B} (r : result A) (k : A -> result B) : result B :=
  match r with
  | Ok a => k a
  | Raise e => Raise e
  end.

(** The values a caller passes as filter criteria. A list holds candidate
    texts. A string is held as its UTF-8 encoding. *)
Inductive value : Type :=
| VNone
| VBool (b : bool)
| VInt (z : Z)
| VStr (s : string)
| VList (l : list string).

(** [bool(v)]: the test of [if responses:] and [if order:]. *)
Definition truthy (v : value) : bool :=
  match v with
  | VNone => false
  | VBool b => b
  | VInt z => negb (z =? 0)%Z
  | VStr s => negb (s =? "")
  | VList l => match l with [] => false | _ :: _ => true end
  end.

(** A byte that continues a code point in UTF-8: [10xxxxxx]. *)
Definition is_continuation (c : ascii) : bool :=
  match c with
  | Ascii _ _ _ _ _ _ b6 b7 => b7 && negb b6
  end.

Definition starts_with_continuation (s : string) : bool :=
  match s with
  | EmptyString => false
  | String c _ => is_continuation c
  end.

(** The characters of a string, each with all the bytes of its code
    point: a byte joins the item after it while that item still begins
    with a continuation byte. *)
Fixpoint code_points (s : string) : list string :=
  match s with
  | EmptyString => []
  | String c s' =>
      match code_points s' with
      | item :: items =>
          if starts_with_continuation item
          then String c item :: items
          else String c EmptyString :: item :: items
      | [] => [String c EmptyString]
      end
  end.

(** [for x in v]: a string yields its characters, a list its elements,
    anything else is not iterable. *)
Definition iterate (v : value) : result (list string) :=
  match v with
  | VStr s => Ok (code_points s)
  | VList l => Ok l
  | _ => Raise TypeError
  end.

(** [str(v)] of an integer and of a boolean. *)
Definition str_of_int (z : Z) : string := NilZero.string_of_int (Z.to_int z).

Definition str_of_bool (b : bool) : string := if b then "True" else "False".

(** [c.lower()] and [s.lower()] on the letters A to Z. *)
Definition lower_ascii (c : ascii) : ascii :=
  let n := nat_of_ascii c in
  if (65 <=? n)%nat && (n <=? 90)%nat then ascii_of_nat (n + 32) else c.

Fixpoint lower (s : string) : string :=
  match s with
  | EmptyString => EmptyString
  | String c s' => String (lower_ascii c) (lower s')
  end.

(** [s.replace(old, new)] for a non-empty [old]: occurrences are found left
    to right and do not overlap. [skip] counts the characters of a matched
    occurrence that are still to be dropped. *)
Fixpoint replace_from (skip : nat) (old new s : string) : string :=
  match s with
  | EmptyString => EmptyString
  | String c s' =>
      match skip with
      | S k => replace_from k old new s'
      | O =>
          if prefix old s
          then new ++ replace_from (String.length old - 1) old new s'
          else String c (replace_from 0 old new s')
      end
  end.

Definition replace (old new s : string) : string := replace_from 0 old new s.

(** [s.split(sep)] for a non-empty [sep]. [cur] is the segment being read,
    last character first. *)
Fixpoint split_from (skip : nat) (sep s : string) (cur : list ascii)
  : list string :=
  match s with
  | EmptyString => [string_of_list_ascii (rev cur)]
  | String c s' =>
      match skip with
      | S k => split_from k sep s' cur
      | O =>
          if prefix sep s
          then string_of_list_ascii (rev cur)
               :: split_from (String.length sep - 1) sep s' []
          else split_from 0 sep s' (c :: cur)
      end
  end.

Definition split (sep s : string) : list string := split_from 0 sep s [].

(** A [dict] with string keys: insertion-ordered, as Python's. *)
Definition dict : Type := list (string * value).

Fixpoint get (k : string) (d : dict) : option value :=
  match d with
  | [] => None
  | (k', v) :: d' => if k' =? k then Some v else get k d'
  end.

Definition mem (k : string) (d : dict) : bool :=
  match get k d with Some _ => true | None => false end.

(** [del d[k]] *)
Definition del (k : string) (d : dict) : dict :=
  List.filter (fun kv => negb (fst kv =? k)) d.

(** [d[k] = v]: an existing key keeps its position, a new key goes last. *)
Fixpoint set (k : string) (v : value) (d : dict) : dict :=
  match d with
  | [] => [(k, v)]
  | (k', v') :: d' =>
      if k' =? k then (k, v) :: d' else (k', v') :: set k v d'
  end.

(** [d.pop(k, default)] *)
Definition pop (k : string) (default : value) (d : dict) : value * dict :=
  match get k d with
  | Some v => (v, del k d)
  | None => (default, d)
  end.

Definition keys (d : dict) : list string := map fst d.

End Py.

(* ================================================================= *)
(** ** The models and the database *)

Module Schema.

(** Modelled from the spec: the model classes of
    [chatterbot.ext.django_chatterbot] are not among the sources. A
    [Statement] row has the four fields that [update] passes to
    [Statement.objects.create] ([text], [conversation], [in_response_to],
    [extra_data]), the primary key every Django model has, and the
    [created_at] timestamp of the data model, assigned when the row is
    stored. [in_response_to] is nullable: [get_response_statements] tests
    it with [in_response_to__isnull]. The adapter knows two models,
    [Statement] and [Tag] ([get_statement_model], [get_tag_model]), and so
    does [factories.py]; there is no table of reply-pairs. *)
Record Statement : Type := mkStatement {
  pk : Z;
  text : string;
  conversation : string;
  in_response_to : option string;
  extra_data : string;
  created_at : Z
}.

(** The database: one table per model, rows in insertion order, the
    sequence that hands out primary keys to statements, and the one
    constraint of the schema that the adapter can run into. Modelled from
    the spec: whether the absent [Statement] model declares [text] unique is
    not visible in the sources (the persisted layout is "keyed by text"), so
    both schemas are covered by [text_unique]. *)
Record DB : Type := mkDB {
  statements : list Statement;
  tags : list string;
  next_pk : Z;
  text_unique : bool
}.

Definition empty_db (unique : bool) : DB := mkDB [] [] 1 unique.

(** The [Statement] object of [chatterbot.conversation] that a caller hands
    to [update]. [o_extra_data = None] is an object without the attribute
    ([getattr(statement, 'extra_data', '')]). *)
Record StatementObject : Type := mkObject {
  o_text : string;
  o_conversation : string;
  o_in_response_to : option string;
  o_extra_data : option string
}.

(** Primary keys identify rows. *)
Definition pk_unique (db : DB) : Prop := NoDup (map pk (statements db)).

(** The sequence is ahead of every key handed out. *)
Definition keys_below_next (db : DB) : Prop :=
  forall s, In s (statements db) -> (pk s < next_pk db)%Z.

Definition well_formed (db : DB) : Prop := pk_unique db /\ keys_below_next db.

End Schema.

(* ================================================================= *)
(** ** The part of the Django ORM the adapter uses *)

Module Orm.
Import Py Schema.

(** The models an adapter can name. *)
Inductive model : Type := StatementModel | TagModel.

Inductive column : Type :=
| ColId | ColText | ColConversation | ColInResponseTo | ColExtraData
| ColCreatedAt.

(** What a column holds. *)
Inductive kind : Type := KInt | KStr | KDateTime.

Definition column_kind (c : column) : kind :=
  match c with
  | ColId => KInt
  | ColCreatedAt => KDateTime
  | ColText | ColConversation | ColInResponseTo | ColExtraData => KStr
  end.

Inductive lookup : Type := LExact | LIn | LIsNull.

Definition column_of_name (n : string) : option column :=
  if n =? "id" then Some ColId
  else if n =? "pk" then Some ColId
  else if n =? "text" then Some ColText
  else if n =? "conversation" then Some ColConversation
  else if n =? "in_response_to" then Some ColInResponseTo
  else if n =? "extra_data" then Some ColExtraData
  else if n =? "created_at" then Some ColCreatedAt
  else None.

Definition lookup_of_name (n : string) : option lookup :=
  if n =? "exact" then Some LExact
  else if n =? "in" then Some LIn
  else if n =? "isnull" then Some LIsNull
  else None.

(** The other lookups and transforms of Django: accepted by the ORM, not
    embedded here. *)
Definition other_lookup (n : string) : bool :=
  existsb (String.eqb n)
    ["iexact"; "contains"; "icontains"; "gt"; "gte"; "lt"; "lte";
     "startswith"; "istartswith"; "endswith"; "iendswith"; "range";
     "regex"; "iregex"; "date"; "year"; "iso_year"; "month"; "day"; "week";
     "week_day"; "iso_week_day"; "quarter"; "time"; "hour"; "minute";
     "second"; "search"].

(** [key.split('__')] against the [Statement] model: a column, then at
    most one lookup. The many-to-many [tags] is the one relation of the
    model; its lookups are not embedded. Any other first name, such as
    [in_response] or [responses], is no field of the model. *)
Definition parse_key (key : string) : result (column * lookup) :=
  match split "__" key with
  | [] => Raise FieldError
  | name :: rest =>
      match column_of_name name with
      | None => if name =? "tags" then Raise NotModelled else Raise FieldError
      | Some c =>
          match rest with
          | [] => Ok (c, LExact)
          | [l] =>
              match lookup_of_name l with
              | Some lk => Ok (c, lk)
              | None =>
                  if other_lookup l then Raise NotModelled else Raise FieldError
              end
          | l :: _ :: _ =>
              if other_lookup l then Raise NotModelled else Raise FieldError
          end
      end
  end.

(** A condition of the WHERE clause, with its right-hand side prepared for
    the column. *)
Inductive test : Type :=
| TIsNull (b : bool)
| TStrEq (s : string)
| TStrIn (items : list string)
| TIntEq (z : Z).

Definition cond : Type := (column * test)%type.

(** The lookup is built: [None] becomes [IS NULL]; a character field
    takes [str(value)], an integer field [int(value)]; [in] over a
    character field takes the items of a list, or the characters of a
    string. Right-hand sides whose preparation is not embedded (a list for
    [exact], text for an integer field, any value for a timestamp, a
    non-boolean for [isnull], [in] over anything else) give
    [NotModelled]. *)
Definition build_lookup (c : column) (l : lookup) (v : value) : result test :=
  match l, v with
  | LExact, VNone => Ok (TIsNull true)
  | LExact, _ =>
      match column_kind c, v with
      | KStr, VStr s => Ok (TStrEq s)
      | KStr, VInt z => Ok (TStrEq (str_of_int z))
      | KStr, VBool b => Ok (TStrEq (str_of_bool b))
      | KInt, VInt z => Ok (TIntEq z)
      | KInt, VBool b => Ok (TIntEq (if b then 1 else 0))
      | _, _ => Raise NotModelled
      end
  | LIn, VStr s =>
      match column_kind c with
      | KStr => Ok (TStrIn (code_points s))
      | _ => Raise NotModelled
      end
  | LIn, VList items =>
      match column_kind c with
      | KStr => Ok (TStrIn items)
      | _ => Raise NotModelled
      end
  | LIn, _ => Raise NotModelled
  | LIsNull, VBool b => Ok (TIsNull b)
  | LIsNull, _ => Raise NotModelled
  end.

Definition compile_cond (kv : string * value) : result cond :=
  rbind (parse_key (fst kv)) (fun cl =>
  rbind (build_lookup (fst cl) (snd cl) (snd kv)) (fun t =>
  Ok (fst cl, t))).

Fixpoint compile_conds (kw : list (string * value)) : result (list cond) :=
  match kw with
  | [] => Ok []
  | kv :: kw' =>
      rbind (compile_cond kv) (fun c =>
      rbind (compile_conds kw') (fun cs => Ok (c :: cs)))
  end.

Section Sorting.
Context {A : Type} (le : A -> A -> bool).

Fixpoint insert_by (x : A) (l : list A) : list A :=
  match l with
  | [] => [x]
  | y :: l' => if le x y then x :: l else y :: insert_by x l'
  end.

(** A stable sort: rows that compare equal keep their table order. *)
Fixpoint sort_by (l : list A) : list A :=
  match l with
  | [] => []
  | x :: l' => insert_by x (sort_by l')
  end.
End Sorting.

(** [sorted(kwargs.items())]: the children of a [Q], by key. *)
Definition sorted_items (kw : dict) : list (string * value) :=
  sort_by (fun a b => String.leb (fst a) (fst b)) kw.

(** [Q] over keyword arguments and [q1 | q2]. *)
Inductive Q : Type :=
| QAnd (kw : dict)
| QOr (a b : Q).

Definition Q_is_empty (q : Q) : bool :=
  match q with
  | QAnd [] => true
  | _ => false
  end.

(** [Q.__or__]: combining with an empty [Q] gives the other operand. *)
Definition Q_or (a b : Q) : Q :=
  if Q_is_empty b then a
  else if Q_is_empty a then b
  else QOr a b.

Inductive where_clause : Type :=
| WAnd (cs : list cond)
| WOr (a b : where_clause)
| WNot (a : where_clause).

(** The names are resolved and the lookups built when the query is
    made. *)
Fixpoint compile_Q (q : Q) : result where_clause :=
  match q with
  | QAnd kw => rbind (compile_conds (sorted_items kw)) (fun cs => Ok (WAnd cs))
  | QOr a b =>
      rbind (compile_Q a) (fun wa =>
      rbind (compile_Q b) (fun wb => Ok (WOr wa wb)))
  end.

(** The parameters are bound when the query runs: an integer outside the
    64 bits of the database does not fit. *)
Definition fits (t : test) : bool :=
  match t with
  | TIntEq z => (- 2 ^ 63 <=? z)%Z && (z <? 2 ^ 63)%Z
  | _ => true
  end.

Fixpoint bind_parameters (w : where_clause) : result unit :=
  match w with
  | WAnd cs =>
      if forallb (fun c => fits (snd c)) cs then Ok tt else Raise OverflowError
  | WOr a b => rbind (bind_parameters a) (fun _ => bind_parameters b)
  | WNot a => bind_parameters a
  end.

(** *** Evaluation *)

(** A cell of a row: SQL NULL, an integer or a string. *)
Inductive cell : Type :=
| Null
| Int (z : Z)
| Str (s : string).

Definition column_cell (s : Statement) (c : column) : cell :=
  match c with
  | ColId => Int (pk s)
  | ColText => Str (text s)
  | ColConversation => Str (conversation s)
  | ColInResponseTo =>
      match in_response_to s with
      | Some t => Str t
      | None => Null
      end
  | ColExtraData => Str (extra_data s)
  | ColCreatedAt => Int (created_at s)
  end.

Definition is_null (c : cell) : bool :=
  match c with Null => true | _ => false end.

(** A comparison with NULL is never true. *)
Definition eval_test (c : cell) (t : test) : bool :=
  match t with
  | TIsNull b => Bool.eqb (is_null c) b
  | TStrEq v => match c with Str s => s =? v | _ => false end
  | TStrIn items =>
      match c with
      | Str s => existsb (fun i => i =? s) items
      | _ => false
      end
  | TIntEq z => match c with Int n => (n =? z)%Z | _ => false end
  end.

Definition eval_cond (s : Statement) (c : cond) : bool :=
  eval_test (column_cell s (fst c)) (snd c).

Fixpoint eval_where (s : Statement) (w : where_clause) : bool :=
  match w with
  | WAnd cs => forallb (eval_cond s) cs
  | WOr a b => eval_where s a || eval_where s b
  | WNot a => negb (eval_where s a)
  end.

(** [SELECT * FROM statement WHERE w] *)
Definition select (db : DB) (w : where_clause) : list Statement :=
  List.filter (fun s => eval_where s w) (statements db).

(** *** Ordering *)

(** The order of a column: NULL first, then integers, then strings. *)
Definition cell_leb (a b : cell) : bool :=
  match a, b with
  | Null, _ => true
  | _, Null => false
  | Int x, Int y => (x <=? y)%Z
  | Int _, Str _ => true
  | Str _, Int _ => false
  | Str x, Str y => String.leb x y
  end.

Inductive ordering : Type :=
| Asc (c : column)
| Desc (c : column)
| Random.

Definition parse_column_order (name : string) : result column :=
  match split "__" name with
  | [a] =>
      match column_of_name a with
      | Some c => Ok c
      | None => if a =? "tags" then Raise NotModelled else Raise FieldError
      end
  | a :: _ =>
      match column_of_name a with
      | Some _ => Raise NotModelled
      | None => if a =? "tags" then Raise NotModelled else Raise FieldError
      end
  | [] => Raise FieldError
  end.

Definition parse_order (o : string) : result ordering :=
  if o =? "?" then Ok Random
  else
    match o with
    | String "-" name => rbind (parse_column_order name) (fun c => Ok (Desc c))
    | _ => rbind (parse_column_order o) (fun c => Ok (Asc c))
    end.

Definition column_leb (c : column) (a b : Statement) : bool :=
  cell_leb (column_cell a c) (column_cell b c).

(** A queryset is lazy: it holds the WHERE clause and the ordering asked
    for, and reads the table when it is evaluated. *)
Record queryset : Type := mkQuerySet {
  qs_where : where_clause;
  qs_order : option ordering
}.

(** [Statement.objects.filter(q)] *)
Definition objects_filter (q : Q) : result queryset :=
  rbind (compile_Q q) (fun w => Ok (mkQuerySet w None)).

(** [Statement.objects.exclude] over keyword arguments. *)
Definition objects_exclude (kw : dict) : result queryset :=
  rbind (compile_Q (QAnd kw)) (fun w => Ok (mkQuerySet (WNot w) None)).

(** [queryset.order_by(order)]: the name is resolved before any row is
    read. An ordering that is not a string is not embedded. *)
Definition order_by (order : value) (qs : queryset) : result queryset :=
  match order with
  | VStr o =>
      rbind (parse_order o) (fun ord => Ok (mkQuerySet (qs_where qs) (Some ord)))
  | _ => Raise NotModelled
  end.

(** The rows in the order asked for. The order of ["?"], and of a
    queryset without ordering, is the database's choice; the table order
    is one such choice. *)
Definition ordered (ord : option ordering) (rows : list Statement)
  : list Statement :=
  match ord with
  | Some (Asc c) => sort_by (column_leb c) rows
  | Some (Desc c) => sort_by (fun a b => column_leb c b a) rows
  | Some Random | None => rows
  end.

(** The queryset is read: the parameters are bound and the rows
    selected. *)
Definition evaluate (db : DB) (qs : queryset) : result (list Statement) :=
  rbind (bind_parameters (qs_where qs)) (fun _ =>
    Ok (ordered (qs_order qs) (select db (qs_where qs)))).

(** [queryset.order_by(f).last()]: Django reverses the ordering and takes
    the first row. Among rows with the same key the database decides; here
    the earlier row of the table comes first. *)
Definition last_by {A : Type} (le : A -> A -> bool) (rows : list A) : option A :=
  hd_error (sort_by (fun a b => le b a) rows).

(** [queryset.order_by('?').first()]: [choice] stands for the random
    number the database draws. *)
Definition random_first {A : Type} (choice : nat) (rows : list A) : option A :=
  match rows with
  | [] => None
  | _ :: _ => nth_error rows (Nat.modulo choice (List.length rows))
  end.

(** *** Writing *)

(** [Statement.objects.create(...)]: a new row, unless [text] is unique
    and taken. Modelled from the spec: [created_at] is assigned from the
    clock [now] when the row is stored. *)
Definition objects_create (now : Z)
    (t c : string) (irt : option string) (ed : string) (db : DB)
  : result Statement * DB :=
  if text_unique db && existsb (fun s => text s =? t) (statements db)
  then (Raise IntegrityError, db)
  else
    let row := mkStatement (next_pk db) t c irt ed now in
    (Ok row,
     mkDB (statements db ++ [row]) (tags db)
          (next_pk db + 1)%Z (text_unique db)).

(** [queryset.delete()]: the rows go by primary key. *)
Definition delete_statements (rows : list Statement) (db : DB) : DB :=
  let dead k := existsb (Z.eqb k) (map pk rows) in
  mkDB (List.filter (fun s => negb (dead (pk s))) (statements db))
       (tags db)
       (next_pk db)
       (text_unique db).

End Orm.

(* ================================================================= *)
(** ** The adapter *)

(** Computations over the database that may raise. *)
Module StateExn.
Import Py Schema.

Definition M (A : Type) : Type := DB -> result A * DB.

Definition ret {A} (a : A) : M A := fun db => (Ok a, db).

Definition bind {A B} (m : M A) (k : A -> M B) : M B :=
  fun db =>
    match m db with
    | (Ok a, db') => k a db'
    | (Raise e, db') => (Raise e, db')
    end.

Definition raise {A} (e : exn) : M A := fun db => (Raise e, db).

(** A pure step that may raise. *)
Definition lift {A} (r : result A) : M A := fun db => (r, db).

(** A query: it reads the database. *)
Definition query {A} (f : DB -> result A) : M A := fun db => (f db, db).

Definition gets {A} (f : DB -> A) : M A := fun db => (Ok (f db), db).

Definition modify (f : DB -> DB) : M unit := fun db => (Ok tt, f db).

Definition run {A} (m : M A) (db : DB) : result A := fst (m db).
Definition exec {A} (m : M A) (db : DB) : DB := snd (m db).

End StateExn.

Declare Scope monad_scope.
Notation "x <- m ;; k" := (StateExn.bind m (fun x => k))
  (at level 61, m at next level, right associativity) : monad_scope.
Notation "m ;;; k" := (StateExn.bind m (fun _ => k))
  (at level 61, right associativity) : monad_scope.

Module DjangoStorageAdapter.
Import Py Schema Orm StateExn.
Local Open Scope monad_scope.

(** [self]. Modelled from the spec: the base class [StorageAdapter] is not
    among the sources; [read_only] is the flag of the adapter configuration
    (default false). [__init__] sets the other two attributes. *)
Record Self : Type := mkSelf {
  read_only : bool;
  adapter_supports_queries : bool;
  django_app_name : string
}.

(** [__init__], with the value of the [django_app_name] option. *)
Definition init (read_only : bool) (django_app_name : string) : Self :=
  mkSelf read_only false django_app_name.

(** [get_model]. Modelled from the spec: the method is inherited from the
    base class [StorageAdapter], which is not among the sources: it calls
    the method [get_<name>_model] of the adapter, with the name in lower
    case. The adapter defines [get_statement_model] and [get_tag_model]
    and no other such method, so any other name is an attribute the
    adapter does not have. The models of the application that
    [django_app_name] names are taken to be installed. *)
Definition get_model (_ : Self) (model_name : string) : result model :=
  let method := ("get_" ++ lower model_name ++ "_model")%string in
  if method =? "get_statement_model" then Ok StatementModel
  else if method =? "get_tag_model" then Ok TagModel
  else Raise AttributeError.

(** [count] *)
Definition count (self : Self) : M Z :=
  lift (get_model self "statement") ;;;
  gets (fun db => Z.of_nat (List.length (statements db))).

(** The loop of [filter] over a copy of [kwargs]: every key is taken out
    and put back under its name with ["in_response_to"] replaced by
    ["in_response"]. *)
Definition rename_step (kwargs : dict) (kwarg : string) : result dict :=
  match get kwarg kwargs with
  | None => Raise KeyError
  | Some value =>
      let kwargs := del kwarg kwargs in
      let kwarg := replace "in_response_to" "in_response" kwarg in
      Ok (set kwarg value kwargs)
  end.

Fixpoint rename_loop (kwargs_copy : list string) (kwargs : dict)
  : result dict :=
  match kwargs_copy with
  | [] => Ok kwargs
  | kwarg :: rest => rbind (rename_step kwargs kwarg) (rename_loop rest)
  end.

Definition rename_keys (kwargs : dict) : result dict :=
  rename_loop (keys kwargs) kwargs.

(** [if 'in_response' in kwargs: ...] *)
Definition translate_in_response (kwargs : dict) : result dict :=
  match get "in_response" kwargs with
  | None => Ok kwargs
  | Some responses =>
      let kwargs := del "in_response" kwargs in
      if truthy responses
      then rbind (iterate responses) (fun items =>
             Ok (set "in_response__response__text__in" (VList items) kwargs))
      else Ok (set "in_response" VNone kwargs)
  end.

(** [parameters] *)
Definition reverse_parameters (kwargs : dict) : dict :=
  match get "in_response__response__text" kwargs with
  | Some value => [("responses__statement__text", value)]
  | None => []
  end.

(** The two [Q] objects of [filter], from the caller's criteria. *)
Definition translate (kwargs : dict) : result Q :=
  rbind (rename_keys kwargs) (fun kwargs =>
  rbind (translate_in_response kwargs) (fun kwargs =>
  Ok (Q_or (QAnd kwargs) (QAnd (reverse_parameters kwargs))))).

(** [filter], and the caller reading the queryset it returns. *)
Definition filter (self : Self) (kwargs : dict) : M (list Statement) :=
  lift (get_model self "statement") ;;;
  let (order, kwargs) := pop "order_by" VNone kwargs in
  q <- lift (translate kwargs) ;;
  statements <- lift (objects_filter q) ;;
  statements <-
    (if truthy order
     then lift (order_by order statements)
     else ret statements) ;;
  query (fun db => evaluate db statements).

(** [update]: the row is created whatever [read_only] says and whatever
    the table holds. [now] is the clock when the row is stored. *)
Definition update (self : Self) (now : Z) (statement : StatementObject)
  : M Statement :=
  lift (get_model self "statement") ;;;
  objects_create now
    (o_text statement)
    (o_conversation statement)
    (o_in_response_to statement)
    (match o_extra_data statement with Some e => e | None => "" end).

(** [get_random] *)
Definition get_random (self : Self) (choice : nat) : M (option Statement) :=
  lift (get_model self "statement") ;;;
  gets (fun db => random_first choice (statements db)).

(** [remove] *)
Definition remove (self : Self) (statement_text : string) : M unit :=
  lift (get_model self "statement") ;;;
  statements <- lift (objects_filter (QAnd [("text", VStr statement_text)])) ;;
  rows <- query (fun db => evaluate db statements) ;;
  modify (delete_statements rows).

(** [Response.objects.filter(conversation=conversation)
    .order_by('created_at').last()], for the model [get_model] handed
    over: a tag has no [conversation]. *)
Definition latest_in_conversation (Response : model) (conversation : string)
    (db : DB) : result (option Statement) :=
  match Response with
  | StatementModel =>
      rbind (objects_filter (QAnd [("conversation", VStr conversation)]))
        (fun qs =>
      rbind (evaluate db qs) (fun rows =>
           Ok (last_by (fun a b => (created_at a <=? created_at b)%Z) rows)))
  | TagModel => Raise FieldError
  end.

(** [get_latest_response]: the adapter is asked for the model
    ["response"] first. A statement has no attribute [response]. *)
Definition get_latest_response (self : Self) (conversation : string)
  : M (option Statement) :=
  Response <- lift (get_model self "response") ;;
  response <- query (latest_in_conversation Response conversation) ;;
  match response with
  | None => ret None
  | Some _ => raise AttributeError
  end.

(** [drop] *)
Definition drop (self : Self) : M unit :=
  lift (get_model self "statement") ;;;
  lift (get_model self "tag") ;;;
  modify (fun db => delete_statements (statements db) db) ;;;
  modify (fun db => mkDB (statements db) [] (next_pk db) (text_unique db)).

(** [get_response_statements], and the caller reading the queryset it
    returns. *)
Definition get_response_statements (self : Self) : M (list Statement) :=
  lift (get_model self "statement") ;;;
  statements <- lift (objects_exclude [("in_response_to__isnull", VBool true)]) ;;
  query (fun db => evaluate db statements).

End DjangoStorageAdapter.

(* ================================================================= *)
(** ** The vocabulary of the storage contract *)

Module Contract.
Import Py Schema Orm StateExn DjangoStorageAdapter.

(** A criterion on a text field of the statement itself. *)
Inductive criterion : Type :=
| TextIs (t : string)
| ConversationIs (c : string)
| ExtraDataIs (e : string).

(** The keyword argument a caller writes for it. *)
Definition criterion_kwarg (c : criterion) : string * value :=
  match c with
  | TextIs t => ("text", VStr t)
  | ConversationIs c => ("conversation", VStr c)
  | ExtraDataIs e => ("extra_data", VStr e)
  end.

(** What it asks of a statement. *)
Definition satisfies (s : Statement) (c : criterion) : bool :=
  match c with
  | TextIs t => text s =? t
  | ConversationIs c => conversation s =? c
  | ExtraDataIs e => extra_data s =? e
  end.

Definition column_name (c : column) : string :=
  match c with
  | ColId => "id"
  | ColText => "text"
  | ColConversation => "conversation"
  | ColInResponseTo => "in_response_to"
  | ColExtraData => "extra_data"
  | ColCreatedAt => "created_at"
  end.

(** The rows are in ascending order of a column. *)
Definition ascending (c : column) (rows : list Statement) : Prop :=
  Sorted (fun a b => cell_leb (column_cell a c) (column_cell b c) = true) rows.

(** The native spelling of a criteria key, and of a criteria map. *)
Definition native_key (k : string) : string :=
  replace "in_response_to" "in_response" k.

Definition native_spelling (kw : dict) : dict :=
  map (fun kv => (native_key (fst kv), snd kv)) kw.

Definition with_order (order : option value) (kw : dict) : dict :=
  match order with
  | Some o => ("order_by", o) :: kw
  | None => kw
  end.

(** A statement is a reply when its [in_response_to] is not null. *)
Definition is_reply (s : Statement) : bool :=
  match in_response_to s with
  | Some _ => true
  | None => false
  end.

(** A character of a string held as UTF-8: a first byte, then
    continuation bytes only. *)
Definition is_character (item : string) : bool :=
  match item with
  | EmptyString => false
  | String _ rest => forallb is_continuation (list_ascii_of_string rest)
  end.

(** A byte below 128. *)
Definition is_ascii (c : ascii) : bool :=
  match c with
  | Ascii _ _ _ _ _ _ _ b7 => negb b7
  end.

(** The condition the ORM makes of a criterion on a field. *)
Definition criterion_cond (c : criterion) : cond :=
  match c with
  | TextIs t => (ColText, TStrEq t)
  | ConversationIs c => (ColConversation, TStrEq c)
  | ExtraDataIs e => (ColExtraData, TStrEq e)
  end.

(** The statements that satisfy all the criteria, in table order. *)
Definition satisfying (cs : list criterion) (db : DB) : list Statement :=
  List.filter (fun s => forallb (satisfies s) cs) (statements db).

(** The value [filter] returns, as a function of the criteria and the
    store. *)
Definition filter_result (kwargs : dict) (db : DB) : result (list Statement) :=
  let order := fst (pop "order_by" VNone kwargs) in
  rbind (translate (snd (pop "order_by" VNone kwargs))) (fun q =>
  rbind (objects_filter q) (fun qs =>
  rbind (if truthy order then order_by order qs else Ok qs) (fun qs =>
  evaluate db qs))).

(** The read operations of the adapter, and the store each leaves. *)
Inductive read_op : Type :=
| Count
| Filter (kwargs : dict)
| GetRandom (choice : nat)
| GetLatestResponse (conversation : string)
| GetResponseStatements.

Definition store_after (self : Self) (op : read_op) (db : DB) : DB :=
  match op with
  | Count => exec (count self) db
  | Filter kwargs => exec (filter self kwargs) db
  | GetRandom choice => exec (get_random self choice) db
  | GetLatestResponse c => exec (get_latest_response self c) db
  | GetResponseStatements => exec (get_response_statements self) db
  end.

(** The stores the adapter builds from an empty one. *)
Inductive reachable : DB -> Prop :=
| reach_empty (unique : bool) : reachable (empty_db unique)
| reach_update (self : Self) (now : Z) (s : StatementObject) (db : DB) :
    reachable db -> reachable (exec (update self now s) db)
| reach_remove (self : Self) (t : string) (db : DB) :
    reachable db -> reachable (exec (remove self t) db)
| reach_drop (self : Self) (db : DB) :
    reachable db -> reachable (exec (drop self) db).

(** *** Stores and statements of the scenarios *)

Definition adapter : Self := init false "django_chatterbot".
Definition read_only_adapter : Self := init true "django_chatterbot".

Definition statement (t c : string) (irt : option string) : StatementObject :=
  mkObject t c irt None.

(** [update] of A, B (replies to A) and C (replies to B) in conversation
    ["test"], on an empty store. *)
Definition chain_store : DB :=
  exec (bind (update adapter 1 (statement "A" "test" None)) (fun _ =>
        bind (update adapter 2 (statement "B" "test" (Some "A"))) (fun _ =>
        update adapter 3 (statement "C" "test" (Some "B")))))
       (empty_db false).

(** The four statements of the response-filter scenario. *)
Definition phone_store : DB :=
  exec (bind (update adapter 1 (statement "What is your quest?" "" None)) (fun _ =>
        bind (update adapter 2 (statement "This is a phone." "" None)) (fun _ =>
        bind (update adapter 3 (statement "A what?" "" (Some "This is a phone."))) (fun _ =>
        update adapter 4 (statement "A phone." "" (Some "A what?"))))))
       (empty_db false).

(** One stored statement, under either schema. *)
Definition one_statement_store (unique : bool) : DB :=
  exec (update adapter 1 (statement "New statement" "" None)) (empty_db unique).

(** [update] of X and of Y, a reply to X. *)
Definition pair_store : DB :=
  exec (bind (update adapter 1 (statement "X" "c" None)) (fun _ =>
        update adapter 2 (statement "Y" "c" (Some "X"))))
       (empty_db false).

(** Two statements that reply to nothing. *)
Definition two_statements_store : DB :=
  exec (bind (update adapter 1 (statement "Testing..." "" None)) (fun _ =>
        update adapter 2 (statement "Testing one, two, three." "" None)))
       (empty_db false).

(** A statement whose [in_response_to] is "Yes". *)
Definition yes_store : DB :=
  exec (bind (update adapter 1 (statement "A" "" (Some "Yes"))) (fun _ =>
        update adapter 2 (statement "B" "" (Some "No"))))
       (empty_db false).

End Contract.

(* ================================================================= *)
(** ** Properties *)

Import Py Schema Orm StateExn DjangoStorageAdapter Contract.

(** *** Lists *)

Lemma filter_none {A} (p : A -> bool) (l : list A) :
  (forall x, In x l -> p x = false) -> List.filter p l = [].
Proof.
  induction l as [|x l IH]; intros H; simpl; [reflexivity|].
  rewrite (H x (or_introl eq_refl)). apply IH. intros y Hy. apply H. now right.
Qed.

Lemma filter_all {A} (p : A -> bool) (l : list A) :
  (forall x, In x l -> p x = true) -> List.filter p l = l.
Proof.
  induction l as [|x l IH]; intros H; simpl; [reflexivity|].
  rewrite (H x (or_introl eq_refl)). f_equal. apply IH. intros y Hy. apply H. now right.
Qed.

Lemma filter_length_split {A} (p : A -> bool) (l : list A) :
  (List.length (List.filter p l) + List.length (List.filter (fun x => negb (p x)) l)
   = List.length l)%nat.
Proof.
  induction l as [|x l IH]; simpl; [reflexivity|].
  destruct (p x); simpl; lia.
Qed.

Lemma forallb_map_ext {A B} (g : A -> B) (f : B -> bool) (h : A -> bool)
    (l : list A) :
  (forall x, f (g x) = h x) -> forallb f (map g l) = forallb h l.
Proof.
  intros H. induction l as [|x l IH]; simpl; [reflexivity|].
  now rewrite H, IH.
Qed.

Lemma NoDup_snoc {A} (x : A) (l : list A) :
  ~ In x l -> NoDup l -> NoDup (l ++ [x]).
Proof.
  intros Hx Hl. apply (Permutation_NoDup (l := x :: l)).
  - apply Permutation_cons_append.
  - now constructor.
Qed.

Lemma forallb_perm {A} (f : A -> bool) (l l' : list A) :
  Permutation l l' -> forallb f l = forallb f l'.
Proof.
  induction 1 as [|x l l' _ IH|x y l|l l' l'' _ IH1 _ IH2]; simpl.
  - reflexivity.
  - now rewrite IH.
  - now rewrite !andb_assoc, (andb_comm (f y)).
  - now rewrite IH1.
Qed.

(** *** The monad *)

Lemma run_bind {A B} (m : M A) (k : A -> M B) (db : DB) :
  run (bind m k) db =
  match m db with
  | (Ok a, db') => run (k a) db'
  | (Raise e, _) => Raise e
  end.
Proof. unfold run, bind. destruct (m db) as [[a|e] db']; reflexivity. Qed.

Lemma exec_bind {A B} (m : M A) (k : A -> M B) (db : DB) :
  exec (bind m k) db =
  match m db with
  | (Ok a, db') => exec (k a) db'
  | (Raise e, db') => db'
  end.
Proof. unfold exec, bind. destruct (m db) as [[a|e] db']; reflexivity. Qed.

(** *** The methods, once the model is at hand *)

Lemma count_unfold (self : Self) :
  count self = gets (fun db => Z.of_nat (List.length (statements db))).
Proof. reflexivity. Qed.

Lemma update_unfold (self : Self) (now : Z) (s : StatementObject) :
  update self now s
  = objects_create now (o_text s) (o_conversation s) (o_in_response_to s)
      (match o_extra_data s with Some e => e | None => "" end).
Proof. reflexivity. Qed.

Lemma get_random_unfold (self : Self) (choice : nat) :
  get_random self choice
  = gets (fun db => random_first choice (statements db)).
Proof. reflexivity. Qed.

(** *** [filter], unfolded *)

Lemma filter_unfold (self : Self) (kwargs : dict) (db : DB) :
  filter self kwargs db = (filter_result kwargs db, db).
Proof.
  unfold filter, filter_result. unfold bind at 1. cbn [lift get_model].
  change (("get_" ++ lower "statement" ++ "_model")%string =? "get_statement_model")
    with true. cbv iota beta.
  destruct (pop "order_by" VNone kwargs) as [order kw]. simpl.
  unfold bind, lift, query, ret.
  destruct (translate kw) as [q|e]; simpl; [|reflexivity].
  destruct (objects_filter q) as [qs|e]; simpl; [|reflexivity].
  destruct (truthy order); [|reflexivity].
  destruct (order_by order qs); reflexivity.
Qed.

Lemma run_filter (self : Self) (kwargs : dict) (db : DB) :
  run (filter self kwargs) db = filter_result kwargs db.
Proof. unfold run. now rewrite filter_unfold. Qed.

Lemma exec_filter (self : Self) (kwargs : dict) (db : DB) :
  exec (filter self kwargs) db = db.
Proof. unfold exec. now rewrite filter_unfold. Qed.

(** *** Dictionaries *)

Lemma get_head (k : string) (v : value) (d : dict) :
  get k ((k, v) :: d) = Some v.
Proof. simpl. now rewrite String.eqb_refl. Qed.

Lemma get_absent (k : string) (d : dict) :
  ~ In k (keys d) -> get k d = None.
Proof.
  induction d as [|[k' v'] d IH]; simpl; intros H; [reflexivity|].
  destruct (String.eqb_spec k' k) as [->|Hne]; [tauto|]. apply IH. tauto.
Qed.

Lemma del_absent (k : string) (d : dict) :
  ~ In k (keys d) -> del k d = d.
Proof.
  intros H. unfold del. apply filter_all. intros [k' v'] Hin. simpl.
  destruct (String.eqb_spec k' k) as [->|Hne]; [|reflexivity].
  exfalso. apply H. unfold keys. apply in_map_iff. now exists (k, v').
Qed.

Lemma del_head (k : string) (v : value) (d : dict) :
  del k ((k, v) :: d) = del k d.
Proof. unfold del. simpl. now rewrite String.eqb_refl. Qed.

Lemma set_absent (k : string) (v : value) (d : dict) :
  ~ In k (keys d) -> set k v d = d ++ [(k, v)].
Proof.
  induction d as [|[k' v'] d IH]; simpl; intros H; [reflexivity|].
  destruct (String.eqb_spec k' k) as [->|Hne]; [tauto|]. f_equal. apply IH. tauto.
Qed.

Lemma keys_app (a b : dict) : keys (a ++ b) = keys a ++ keys b.
Proof. unfold keys. apply map_app. Qed.

Lemma keys_native_spelling (kw : dict) :
  keys (native_spelling kw) = map native_key (keys kw).
Proof.
  unfold keys, native_spelling. rewrite !map_map. reflexivity.
Qed.

(** *** The renaming loop *)

(** While the loop runs, the dictionary holds the keys still to be renamed,
    in order, followed by the renamed ones. *)
Lemma rename_loop_spec (todo : dict) :
  forall done : dict,
    NoDup (map native_key (keys todo) ++ keys done) ->
    (forall k, In k (keys todo) -> native_key (native_key k) = native_key k) ->
    (forall k, In k (keys done) -> native_key k = k) ->
    rename_loop (keys todo) (todo ++ done) = Ok (done ++ native_spelling todo).
Proof.
  induction todo as [|[k v] todo IH]; intros done Hnd Hidem Hfix.
  - simpl. now rewrite app_nil_r.
  - simpl keys in *. simpl map in Hnd. simpl app in Hnd.
    apply NoDup_cons_iff in Hnd. destruct Hnd as [Hk Hnd].
    assert (Hkk : native_key (native_key k) = native_key k)
      by (apply Hidem; now left).
    assert (H1 : ~ In k (keys todo)).
    { intros Hin. apply Hk. apply in_or_app. left. now apply in_map. }
    assert (H2 : ~ In k (keys done)).
    { intros Hin. apply Hk. apply in_or_app. right. now rewrite (Hfix k Hin). }
    assert (H3 : ~ In (native_key k) (keys todo)).
    { intros Hin. apply Hk. apply in_or_app. left.
      rewrite <- Hkk. now apply in_map. }
    assert (H4 : ~ In (native_key k) (keys done)).
    { intros Hin. apply Hk. apply in_or_app. now right. }
    simpl rename_loop. unfold rename_step.
    change (((k, v) :: todo) ++ done) with ((k, v) :: (todo ++ done)).
    rewrite get_head, del_head.
    rewrite del_absent by (rewrite keys_app; intros Hin;
                           apply in_app_or in Hin; tauto).
    fold (native_key k).
    rewrite set_absent by (rewrite keys_app; intros Hin;
                           apply in_app_or in Hin; tauto).
    simpl rbind. rewrite <- app_assoc.
    rewrite IH.
    + simpl. now rewrite <- app_assoc.
    + rewrite keys_app. simpl.
      rewrite app_assoc. apply NoDup_snoc; assumption.
    + intros k' Hin. apply Hidem. now right.
    + intros k' Hin. rewrite keys_app in Hin. apply in_app_or in Hin.
      destruct Hin as [Hin|[<-|[]]]; [now apply Hfix | exact Hkk].
Qed.

Lemma rename_keys_native (kw : dict) :
  NoDup (map native_key (keys kw)) ->
  (forall k, In k (keys kw) -> native_key (native_key k) = native_key k) ->
  rename_keys kw = Ok (native_spelling kw).
Proof.
  intros Hnd Hidem. unfold rename_keys.
  rewrite <- (app_nil_r kw) at 2.
  rewrite rename_loop_spec; simpl; try rewrite app_nil_r; auto.
  intros k [].
Qed.

Lemma native_spelling_idem (kw : dict) :
  (forall k, In k (keys kw) -> native_key (native_key k) = native_key k) ->
  native_spelling (native_spelling kw) = native_spelling kw.
Proof.
  intros Hidem. unfold native_spelling. rewrite map_map. apply map_ext_in.
  intros [k v] Hin. simpl. f_equal. apply Hidem.
  unfold keys. apply in_map_iff. now exists (k, v).
Qed.

Lemma rename_keys_native_fixed (kw : dict) :
  NoDup (map native_key (keys kw)) ->
  (forall k, In k (keys kw) -> native_key (native_key k) = native_key k) ->
  rename_keys (native_spelling kw) = Ok (native_spelling kw).
Proof.
  intros Hnd Hidem.
  assert (Hmm : map native_key (map native_key (keys kw)) = map native_key (keys kw)).
  { rewrite map_map. apply map_ext_in. intros k Hin. now apply Hidem. }
  rewrite rename_keys_native.
  - now rewrite native_spelling_idem.
  - rewrite keys_native_spelling, Hmm. exact Hnd.
  - intros k Hin. rewrite keys_native_spelling in Hin.
    apply in_map_iff in Hin. destruct Hin as (k0 & <- & Hin0).
    now rewrite !(Hidem k0 Hin0).
Qed.

(** *** Sorting *)

Lemma cell_leb_total (a b : cell) : cell_leb a b = true \/ cell_leb b a = true.
Proof.
  destruct a as [|x|x], b as [|y|y]; simpl; auto.
  - destruct (Z.leb_spec x y); [now left|right]. apply Z.leb_le. lia.
  - apply String.leb_total.
Qed.

Section SortingFacts.
Context {A : Type} (le : A -> A -> bool).
Hypothesis le_total : forall a b, le a b = true \/ le b a = true.

Let R (a b : A) : Prop := le a b = true.

Lemma insert_by_perm (x : A) (l : list A) :
  Permutation (insert_by le x l) (x :: l).
Proof.
  induction l as [|y l IH]; simpl; [reflexivity|].
  destruct (le x y); [reflexivity|].
  rewrite IH. apply perm_swap.
Qed.

Lemma sort_by_perm (l : list A) : Permutation (sort_by le l) l.
Proof.
  induction l as [|x l IH]; simpl; [reflexivity|].
  rewrite insert_by_perm. now constructor.
Qed.

Lemma insert_by_hd (x a : A) (l : list A) :
  R a x -> HdRel R a l -> HdRel R a (insert_by le x l).
Proof.
  intros Hax Hl. destruct l as [|y l]; simpl.
  - now constructor.
  - destruct (le x y); constructor; [assumption|]. now inversion Hl.
Qed.

Lemma insert_by_sorted (x : A) (l : list A) :
  Sorted R l -> Sorted R (insert_by le x l).
Proof.
  induction 1 as [|y l Hs IH Hhd]; simpl.
  - repeat constructor.
  - destruct (le x y) eqn:Hxy.
    + constructor; [now constructor|now constructor].
    + constructor; [assumption|].
      apply insert_by_hd; [|assumption].
      destruct (le_total x y) as [H|H]; [congruence|exact H].
Qed.

Lemma sort_by_sorted (l : list A) : Sorted R (sort_by le l).
Proof.
  induction l as [|x l IH]; simpl; [constructor|].
  now apply insert_by_sorted.
Qed.
End SortingFacts.

(** *** Criteria on the fields of the statement *)

Lemma criterion_key_native (c : criterion) :
  native_key (fst (criterion_kwarg c)) = fst (criterion_kwarg c).
Proof. destruct c; reflexivity. Qed.

Lemma criteria_native (cs : list criterion) :
  native_spelling (map criterion_kwarg cs) = map criterion_kwarg cs.
Proof.
  unfold native_spelling. rewrite map_map. apply map_ext. intros c.
  rewrite criterion_key_native. now destruct (criterion_kwarg c).
Qed.

Lemma criteria_keys_native (cs : list criterion) :
  map native_key (keys (map criterion_kwarg cs)) = keys (map criterion_kwarg cs).
Proof.
  unfold keys. rewrite !map_map. apply map_ext. intros c.
  apply criterion_key_native.
Qed.

(** A key that no criterion on a field uses is not in the map. *)
Lemma criteria_get_other (k : string) (cs : list criterion) :
  (forall c, (fst (criterion_kwarg c) =? k) = false) ->
  get k (map criterion_kwarg cs) = None.
Proof.
  intros Hk. induction cs as [|c cs IH]; [reflexivity|].
  specialize (Hk c). cbn [map get].
  destruct (criterion_kwarg c) as [k' v']. cbn [fst] in Hk.
  rewrite Hk. exact IH.
Qed.

Lemma criteria_del_other (k : string) (cs : list criterion) :
  (forall c, (fst (criterion_kwarg c) =? k) = false) ->
  del k (map criterion_kwarg cs) = map criterion_kwarg cs.
Proof.
  intros Hk. unfold del. apply filter_all. intros kv Hin.
  apply in_map_iff in Hin. destruct Hin as (c & <- & _). now rewrite Hk.
Qed.

Lemma translate_criteria (cs : list criterion) :
  NoDup (keys (map criterion_kwarg cs)) ->
  translate (map criterion_kwarg cs) = Ok (QAnd (map criterion_kwarg cs)).
Proof.
  intros Hnd. unfold translate.
  rewrite rename_keys_native.
  - rewrite criteria_native. simpl rbind. unfold translate_in_response.
    rewrite criteria_get_other by (intros c; now destruct c).
    simpl rbind. unfold reverse_parameters.
    rewrite criteria_get_other by (intros c; now destruct c).
    reflexivity.
  - now rewrite criteria_keys_native.
  - intros k Hin. unfold keys in Hin. rewrite map_map in Hin.
    apply in_map_iff in Hin. destruct Hin as (c & <- & _).
    now rewrite !criterion_key_native.
Qed.

Lemma compile_criteria (cs : list criterion) :
  compile_conds (map criterion_kwarg cs) = Ok (map criterion_cond cs).
Proof.
  induction cs as [|c cs IH]; simpl; [reflexivity|].
  rewrite IH. now destruct c.
Qed.

(** The conditions do not depend on the order the children are compiled
    in, only their order does. *)
Lemma compile_conds_perm (l l' : list (string * value)) :
  Permutation l l' ->
  forall conds,
    compile_conds l = Ok conds ->
    exists conds', compile_conds l' = Ok conds' /\ Permutation conds conds'.
Proof.
  induction 1 as [|x l l' _ IH|x y l|l l' l'' _ IH1 _ IH2]; intros conds Hc.
  - exists conds. now split.
  - simpl in *. destruct (compile_cond x) as [c|e]; [|discriminate].
    simpl in *. destruct (compile_conds l) as [cs|e]; [|discriminate].
    simpl in Hc. inversion Hc; subst.
    destruct (IH cs eq_refl) as (cs' & -> & Hp).
    exists (c :: cs'). split; [reflexivity|]. now constructor.
  - simpl in *. destruct (compile_cond y) as [cy|e]; [|discriminate].
    simpl in *. destruct (compile_cond x) as [cx|e]; [|discriminate].
    simpl in *. destruct (compile_conds l) as [cs|e]; [|discriminate].
    simpl in Hc. inversion Hc; subst.
    exists (cx :: cy :: cs). split; [reflexivity|]. apply perm_swap.
  - destruct (IH1 conds Hc) as (c1 & H1 & Hp1).
    destruct (IH2 c1 H1) as (c2 & H2 & Hp2).
    exists c2. split; [assumption|]. now transitivity c1.
Qed.

Lemma sorted_items_perm (kw : dict) : Permutation (sorted_items kw) kw.
Proof. apply sort_by_perm. Qed.

Lemma compile_sorted_criteria (cs : list criterion) :
  exists conds,
    compile_conds (sorted_items (map criterion_kwarg cs)) = Ok conds /\
    Permutation (map criterion_cond cs) conds.
Proof.
  apply (compile_conds_perm (map criterion_kwarg cs)).
  - symmetry. apply sorted_items_perm.
  - apply compile_criteria.
Qed.

Lemma criterion_cond_satisfies (s : Statement) (c : criterion) :
  eval_cond s (criterion_cond c) = satisfies s c.
Proof. destruct c; reflexivity. Qed.

Lemma criterion_cond_fits (c : criterion) :
  fits (snd (criterion_cond c)) = true.
Proof. now destruct c. Qed.

Lemma objects_filter_criteria (cs : list criterion) :
  exists conds,
    objects_filter (QAnd (map criterion_kwarg cs))
    = Ok (mkQuerySet (WAnd conds) None) /\
    Permutation (map criterion_cond cs) conds.
Proof.
  unfold objects_filter. cbn [compile_Q].
  destruct (compile_sorted_criteria cs) as (conds & -> & Hp).
  exists conds. now split.
Qed.

Lemma evaluate_criteria (db : DB) (cs : list criterion) (conds : list cond)
    (ord : option ordering) :
  Permutation (map criterion_cond cs) conds ->
  evaluate db (mkQuerySet (WAnd conds) ord)
  = Ok (ordered ord (satisfying cs db)).
Proof.
  intros Hp. unfold evaluate. cbn [qs_where qs_order bind_parameters].
  rewrite <- (forallb_perm _ _ _ Hp).
  rewrite (forallb_map_ext criterion_cond _ (fun _ => true))
    by (intros c; apply criterion_cond_fits).
  replace (forallb (fun _ : criterion => true) cs) with true
    by (symmetry; apply forallb_forall; reflexivity).
  cbn [rbind]. do 2 f_equal. unfold select, satisfying.
  apply filter_ext. intros s. cbn [eval_where].
  rewrite <- (forallb_perm _ _ _ Hp).
  apply forallb_map_ext. intros c. apply criterion_cond_satisfies.
Qed.

Lemma order_by_column (c : column) (qs : queryset) :
  truthy (VStr (column_name c)) = true /\
  order_by (VStr (column_name c)) qs
  = Ok (mkQuerySet (qs_where qs) (Some (Asc c))).
Proof. destruct c; split; reflexivity. Qed.

Lemma filter_criteria (cs : list criterion) (db : DB) :
  NoDup (keys (map criterion_kwarg cs)) ->
  filter_result (map criterion_kwarg cs) db = Ok (satisfying cs db).
Proof.
  intros Hnd. unfold filter_result, pop.
  rewrite criteria_get_other by (intros c; now destruct c).
  simpl fst. simpl snd.
  rewrite translate_criteria by assumption. simpl rbind.
  destruct (objects_filter_criteria cs) as (conds & -> & Hp).
  cbn [rbind truthy]. now rewrite (evaluate_criteria db cs conds None Hp).
Qed.

Lemma filter_criteria_ordered (c : column) (cs : list criterion) (db : DB) :
  NoDup (keys (map criterion_kwarg cs)) ->
  filter_result (("order_by", VStr (column_name c)) :: map criterion_kwarg cs) db
  = Ok (sort_by (column_leb c) (satisfying cs db)).
Proof.
  intros Hnd. unfold filter_result, pop.
  rewrite get_head, del_head.
  rewrite criteria_del_other by (intros c0; now destruct c0).
  simpl fst. simpl snd.
  rewrite translate_criteria by assumption. cbn [rbind].
  destruct (objects_filter_criteria cs) as (conds & -> & Hp).
  destruct (order_by_column c (mkQuerySet (WAnd conds) None)) as [Ht Ho].
  cbn [rbind]. rewrite Ht, Ho. cbn [rbind qs_where].
  now rewrite (evaluate_criteria db cs conds (Some (Asc c)) Hp).
Qed.

Lemma order_by_column_ascending (c : column) (rows : list Statement) :
  ascending c (sort_by (column_leb c) rows).
Proof.
  unfold ascending.
  apply (sort_by_sorted (column_leb c)).
  intros a b. apply cell_leb_total.
Qed.


(* ================================================================= *)
(** ** Reading leaves the store as it is *)

Lemma get_latest_response_raises (self : Self) (c : string) (db : DB) :
  get_latest_response self c db = (Raise AttributeError, db).
Proof. reflexivity. Qed.

Lemma exec_get_latest_response (self : Self) (c : string) (db : DB) :
  exec (get_latest_response self c) db = db.
Proof. unfold exec. now rewrite get_latest_response_raises. Qed.


(** C10. Every read operation ([count], [filter] with any criteria and any
    [order_by], [get_random], [get_latest_response],
    [get_response_statements]) leaves the store unchanged, so [count] and
    [filter] with any criteria give the same results after it as before. *)
Theorem reads_leave_store_unchanged (self : Self) (op : read_op) (db : DB) :
  store_after self op db = db /\
  run (count self) (store_after self op db) = run (count self) db /\
  forall kwargs,
    run (filter self kwargs) (store_after self op db)
    = run (filter self kwargs) db.
Proof.
  assert (H : store_after self op db = db).
  { destruct op; simpl.
    - reflexivity.
    - apply exec_filter.
    - reflexivity.
    - apply exec_get_latest_response.
    - reflexivity. }
  rewrite H. repeat split.
Qed.

(* ================================================================= *)
(** ** [get_response_statements] *)

Lemma get_response_statements_spec (self : Self) (db : DB) :
  run (get_response_statements self) db
  = Ok (List.filter is_reply (statements db)).
Proof.
  change (run (get_response_statements self) db)
    with (Ok (select db (WNot (WAnd [(ColInResponseTo, TIsNull true)])))).
  f_equal. unfold select. apply filter_ext. intros s.
  unfold is_reply. cbn. unfold eval_cond. cbn.
  destruct (in_response_to s); reflexivity.
Qed.

(** C5. [get_response_statements] returns exactly the stored statements
    whose [in_response_to] is not null; for the four stored statements
    "What is your quest?", "This is a phone.", "A what?" (a reply to "This
    is a phone.") and "A phone." (a reply to "A what?") these are exactly
    "A what?" and "A phone.". *)
Theorem get_response_statements_are_replies :
  (forall self db,
      run (get_response_statements self) db
      = Ok (List.filter is_reply (statements db))) /\
  map (fun s => (text s, in_response_to s)) (statements phone_store)
  = [("What is your quest?", None); ("This is a phone.", None);
     ("A what?", Some "This is a phone."); ("A phone.", Some "A what?")] /\
  exists rows,
    run (get_response_statements adapter) phone_store = Ok rows /\
    map text rows = ["A what?"; "A phone."].
Proof.
  split; [exact get_response_statements_spec|].
  split; [reflexivity|].
  eexists. split; reflexivity.
Qed.

(* ================================================================= *)
(** ** [update] *)

(** [update] never looks for a stored statement: it appends a row, or the
    uniqueness of [text] makes [create] raise and the store stays as it
    is. *)
Lemma update_creates_or_raises (self : Self) (now : Z) (s : StatementObject)
    (db : DB) :
  (text_unique db = true /\
   (exists old, In old (statements db) /\ text old = o_text s) /\
   update self now s db = (Raise IntegrityError, db))
  \/
  (exists row,
      update self now s db
      = (Ok row,
         mkDB (statements db ++ [row]) (tags db)
              (next_pk db + 1)%Z (text_unique db)) /\
      row = mkStatement (next_pk db) (o_text s) (o_conversation s)
              (o_in_response_to s)
              (match o_extra_data s with Some e => e | None => "" end) now).
Proof.
  rewrite update_unfold. unfold objects_create.
  destruct (text_unique db) eqn:Hu; simpl.
  - destruct (existsb (fun s0 => text s0 =? o_text s) (statements db)) eqn:Hex.
    + left. split; [reflexivity|]. split; [|reflexivity].
      apply existsb_exists in Hex. destruct Hex as (old & Hin & Heq).
      exists old. split; [assumption|]. now apply String.eqb_eq.
    + right. eexists. split; reflexivity.
  - right. eexists. split; reflexivity.
Qed.


(** C1. On a store that already holds a statement of text "New statement",
    [update] of a statement of that text with [in_response_to] "New
    response" does not update the record in place. Without a uniqueness
    constraint on [text] the store then holds two records of that text, the
    old one with its old [in_response_to]; with the constraint [update]
    raises [IntegrityError] and the one record keeps its old
    [in_response_to]. *)
Theorem update_existing_text_not_in_place :
  let s := statement "New statement" "" (Some "New response") in
  let by_text := [("text", VStr "New statement")] in
  (exists old,
      run (filter adapter by_text) (one_statement_store false) = Ok [old] /\
      in_response_to old = None) /\
  (exists old new,
      run (filter adapter by_text)
          (exec (update adapter 2 s) (one_statement_store false))
      = Ok [old; new] /\
      in_response_to old = None /\
      in_response_to new = Some "New response") /\
  run (update adapter 2 s) (one_statement_store true) = Raise IntegrityError /\
  (exists old,
      run (filter adapter by_text)
          (exec (update adapter 2 s) (one_statement_store true))
      = Ok [old] /\
      in_response_to old = None).
Proof.
  cbv zeta. repeat split.
  - eexists. split; reflexivity.
  - do 2 eexists. repeat split; reflexivity.
  - eexists. split; reflexivity.
Qed.

Lemma filter_by_text (self : Self) (t : string) (db : DB) :
  run (filter self [("text", VStr t)]) db
  = Ok (List.filter (fun s => text s =? t) (statements db)).
Proof.
  rewrite run_filter.
  change [("text", VStr t)] with (map criterion_kwarg [TextIs t]).
  rewrite filter_criteria by (repeat constructor; simpl; tauto).
  unfold satisfying. f_equal. apply filter_ext. intros s. simpl.
  apply andb_true_r.
Qed.

Lemma filter_no_criteria (self : Self) (db : DB) :
  run (filter self []) db = Ok (statements db).
Proof.
  rewrite run_filter.
  change (@nil (string * value)) with (map criterion_kwarg []).
  rewrite filter_criteria by constructor.
  unfold satisfying. f_equal. now apply filter_all.
Qed.

(** C2. On an empty store and with a read-only adapter, [update] is not a
    no-op: it stores the statement all the same. [count] goes from 0 to 1
    and [filter] on the text, empty before, finds the new record. *)
Theorem read_only_update_writes :
  let s := statement "New statement" "" None in
  let db := empty_db false in
  let db' := exec (update read_only_adapter 1 s) db in
  read_only read_only_adapter = true /\
  run (count read_only_adapter) db = Ok 0%Z /\
  run (filter read_only_adapter [("text", VStr "New statement")]) db = Ok [] /\
  db' <> db /\
  run (count read_only_adapter) db' = Ok 1%Z /\
  run (filter read_only_adapter [("text", VStr "New statement")]) db'
  = Ok [mkStatement 1 "New statement" "" None "" 1].
Proof.
  cbv zeta. repeat split; try reflexivity. discriminate.
Qed.

(* ================================================================= *)
(** ** [get_latest_response] *)

(** C3. After [update] of A, of B (a reply to A) and of C (a reply to B) in
    conversation "test", the conversation holds exactly that chain, and
    [get_latest_response] does not return B: the adapter is asked for the
    model "response", which it does not have, and the call raises
    [AttributeError]. On a store without statements it raises in the same
    way and does not return null. *)
Theorem get_latest_response_of_stored_chain_raises :
  map (fun s => (text s, conversation s, in_response_to s))
      (statements chain_store)
  = [("A", "test", None); ("B", "test", Some "A"); ("C", "test", Some "B")] /\
  get_model adapter "response" = Raise AttributeError /\
  run (get_latest_response adapter "test") chain_store = Raise AttributeError /\
  run (get_latest_response adapter "test") (empty_db false)
  = Raise AttributeError.
Proof. repeat split. Qed.

(** C8. On an empty store [get_random] returns null, and [filter] with a
    criterion on [text] that matches nothing returns the empty sequence,
    without raising. [get_latest_response] for a conversation without data
    does raise: it returns no null but [AttributeError]. And [filter] with
    a criterion on [in_response_to] that matches nothing raises
    [FieldError]. *)
Theorem latest_response_not_found_raises :
  statements (empty_db false) = [] /\
  run (get_random adapter 0) (empty_db false) = Ok None /\
  run (filter adapter [("text", VStr "Non-existant")]) (empty_db false)
  = Ok [] /\
  run (filter adapter [("text", VStr "Non-existant")]) chain_store = Ok [] /\
  run (get_latest_response adapter "test") (empty_db false)
  = Raise AttributeError /\
  run (filter adapter [("in_response_to", VStr "Maybe")]) chain_store
  = Raise FieldError.
Proof. repeat split. Qed.

(* ================================================================= *)
(** ** [filter] on [in_response_to] *)

Lemma translate_in_response_to (v : value) :
  translate [("in_response_to", v)]
  = if truthy v
    then rbind (iterate v) (fun items =>
           Ok (QAnd [("in_response__response__text__in", VList items)]))
    else Ok (QAnd [("in_response", VNone)]).
Proof.
  unfold translate.
  change (rename_keys [("in_response_to", v)]) with (Ok [("in_response", v)]).
  simpl rbind. unfold translate_in_response. cbn [get String.eqb Ascii.eqb Bool.eqb].
  destruct (truthy v); [|reflexivity].
  destruct (iterate v); reflexivity.
Qed.

Lemma filter_in_response_to (v : value) (db : DB) :
  filter_result [("in_response_to", v)] db
  = rbind (translate [("in_response_to", v)]) (fun q =>
    rbind (objects_filter q) (evaluate db)).
Proof.
  unfold filter_result. simpl.
  destruct (translate [("in_response_to", v)]) as [q|e]; simpl; [|reflexivity].
  now destruct (objects_filter q).
Qed.

(** C4. Two statements are stored by [update], each with a null
    [in_response_to]. [filter] with [in_response_to] equal to the empty
    list does not return them: the criterion becomes the test
    [in_response = None], under a name that is no field of the statement,
    and the query raises [FieldError]. It does so with [None] for the
    empty list as well. *)
Theorem filter_empty_candidates_raises :
  map (fun s => (text s, in_response_to s)) (statements two_statements_store)
  = [("Testing...", None); ("Testing one, two, three.", None)] /\
  translate [("in_response_to", VList [])] = Ok (QAnd [("in_response", VNone)]) /\
  run (filter adapter [("in_response_to", VList [])]) two_statements_store
  = Raise FieldError /\
  run (filter adapter [("in_response_to", VNone)]) two_statements_store
  = Raise FieldError.
Proof. repeat split. Qed.

(** C6. A statement A whose [in_response_to] is "Yes" is stored by
    [update]; it satisfies the criterion [in_response_to = "Yes"], and
    [filter] with that criterion does not return it: the criterion becomes
    an inclusion test under the name [in_response], which is no field of
    the statement, and the query raises [FieldError], whether the value is
    the text or the list of the one text. *)
Theorem filter_on_in_response_to_raises :
  map (fun s => (text s, in_response_to s)) (statements yes_store)
  = [("A", Some "Yes"); ("B", Some "No")] /\
  translate [("in_response_to", VStr "Yes")]
  = Ok (QAnd [("in_response__response__text__in", VList ["Y"; "e"; "s"])]) /\
  run (filter adapter [("in_response_to", VStr "Yes")]) yes_store
  = Raise FieldError /\
  run (filter adapter [("in_response_to", VList ["Yes"])]) yes_store
  = Raise FieldError.
Proof. repeat split. Qed.

(** C9. In a store where Y is stored as a reply to X, [filter] with a
    criterion on the text of the reply target matches no statement on
    either side of the pair: under both spellings of the key the query is
    made of [in_response__response__text] or
    [responses__statement__text], neither of which starts with a field of
    the statement, and it raises [FieldError]. *)
Theorem nested_criterion_raises :
  map (fun s => (text s, in_response_to s)) (statements pair_store)
  = [("X", None); ("Y", Some "X")] /\
  translate [("in_response_to__response__text", VStr "X")]
  = Ok (QOr (QAnd [("in_response__response__text", VStr "X")])
            (QAnd [("responses__statement__text", VStr "X")])) /\
  run (filter adapter [("in_response_to__response__text", VStr "X")]) pair_store
  = Raise FieldError /\
  run (filter adapter [("in_response__response__text", VStr "X")]) pair_store
  = Raise FieldError.
Proof. repeat split. Qed.

(** *** Aliasing of the criteria keys *)

Lemma translate_native (kw : dict) :
  NoDup (map native_key (keys kw)) ->
  (forall k, In k (keys kw) -> native_key (native_key k) = native_key k) ->
  translate kw = translate (native_spelling kw).
Proof.
  intros Hnd Hidem. unfold translate.
  now rewrite rename_keys_native, rename_keys_native_fixed.
Qed.

Lemma filter_result_native (kw : dict) (order : option value) (db : DB) :
  NoDup (map native_key (keys kw)) ->
  (forall k, In k (keys kw) -> native_key (native_key k) = native_key k) ->
  ~ In "order_by" (map native_key (keys kw)) ->
  filter_result (with_order order kw) db
  = filter_result (with_order order (native_spelling kw)) db.
Proof.
  intros Hnd Hidem Hob.
  assert (Hkw : ~ In "order_by" (keys kw)).
  { intros Hin. apply Hob. change "order_by" with (native_key "order_by").
    now apply in_map. }
  assert (Hnat : ~ In "order_by" (keys (native_spelling kw)))
    by now rewrite keys_native_spelling.
  destruct order as [o|]; unfold with_order, filter_result, pop.
  - rewrite !get_head, !del_head, !del_absent by assumption.
    cbn [fst snd]. now rewrite (translate_native kw).
  - rewrite !get_absent by assumption.
    cbn [fst snd]. now rewrite (translate_native kw).
Qed.

(* ================================================================= *)
(** ** [remove] *)

Lemma pk_injective (l : list Statement) (a b : Statement) :
  NoDup (map pk l) -> In a l -> In b l -> pk a = pk b -> a = b.
Proof.
  induction l as [|x l IH]; simpl; intros Hnd Ha Hb Hpk; [destruct Ha|].
  apply NoDup_cons_iff in Hnd. destruct Hnd as [Hx Hnd].
  destruct Ha as [<-|Ha], Hb as [<-|Hb].
  - reflexivity.
  - exfalso. apply Hx. rewrite Hpk. now apply in_map.
  - exfalso. apply Hx. rewrite <- Hpk. now apply in_map.
  - now apply IH.
Qed.

(** With unique primary keys, the rows whose key is among those selected
    are the rows selected. *)
Lemma selected_by_pk (p : Statement -> bool) (l : list Statement)
    (s : Statement) :
  NoDup (map pk l) -> In s l ->
  existsb (Z.eqb (pk s)) (map pk (List.filter p l)) = p s.
Proof.
  intros Hnd Hs. destruct (p s) eqn:Hp.
  - apply existsb_exists. exists (pk s). split; [|apply Z.eqb_refl].
    apply in_map. now apply filter_In.
  - apply not_true_is_false. intros Hex. apply existsb_exists in Hex.
    destruct Hex as (k & Hk & Heq). apply Z.eqb_eq in Heq. subst k.
    apply in_map_iff in Hk. destruct Hk as (s' & Hpk & Hs').
    apply filter_In in Hs'. destruct Hs' as [Hs' Hp'].
    assert (s' = s) by (apply (pk_injective l); auto). congruence.
Qed.

Lemma remove_unfold (self : Self) (t : string) (db : DB) :
  remove self t db
  = (Ok tt,
     delete_statements (List.filter (fun s => text s =? t) (statements db)) db).
Proof.
  change (remove self t db)
    with (Ok tt,
          delete_statements (select db (WAnd [(ColText, TStrEq t)])) db).
  do 2 f_equal. unfold select. apply filter_ext. intros s. simpl.
  apply andb_true_r.
Qed.

Lemma remove_statements (self : Self) (t : string) (db : DB) :
  pk_unique db ->
  statements (exec (remove self t) db)
  = List.filter (fun s => negb (text s =? t)) (statements db).
Proof.
  intros Hnd. unfold exec. rewrite remove_unfold. cbn [snd].
  unfold delete_statements. cbn [statements].
  apply filter_ext_in. intros s Hs. f_equal.
  now apply selected_by_pk.
Qed.

(** C7. With primary keys that identify the rows, [remove(t)] deletes
    every stored statement whose text is [t] and no other statement:
    afterwards [filter(text=t)] is empty; if exactly one stored statement
    had text [t], [count] is smaller by exactly one; and the other
    statements, among them those whose [in_response_to] is [t], are still
    stored as they were, and reading them raises nothing. *)
Theorem remove_deletes_statements_of_text
    (self : Self) (t : string) (db : DB) :
  pk_unique db ->
  run (remove self t) db = Ok tt /\
  statements (exec (remove self t) db)
  = List.filter (fun s => negb (text s =? t)) (statements db) /\
  run (filter self [("text", VStr t)]) (exec (remove self t) db) = Ok [] /\
  (List.length (List.filter (fun s => text s =? t) (statements db)) = 1%nat ->
   exists n,
     run (count self) db = Ok n /\
     run (count self) (exec (remove self t) db) = Ok (n - 1)%Z) /\
  (forall s,
      In s (statements db) -> text s <> t ->
      In s (statements (exec (remove self t) db))) /\
  (forall s,
      In s (statements db) -> text s <> t -> in_response_to s = Some t ->
      exists rows replies,
        run (filter self [("text", VStr (text s))]) (exec (remove self t) db)
        = Ok rows /\ In s rows /\
        run (get_response_statements self) (exec (remove self t) db)
        = Ok replies /\ In s replies).
Proof.
  intros Hnd.
  pose proof (remove_statements self t db Hnd) as Hst.
  assert (Hkeep : forall s, In s (statements db) -> text s <> t ->
                            In s (statements (exec (remove self t) db))).
  { intros s Hs Hne. rewrite Hst. apply filter_In. split; [assumption|].
    apply negb_true_iff. now apply String.eqb_neq. }
  split; [|split; [|split; [|split; [|split]]]].
  - unfold run. now rewrite remove_unfold.
  - exact Hst.
  - rewrite filter_by_text, Hst. f_equal. apply filter_none.
    intros s Hs. apply filter_In in Hs. destruct Hs as [_ Hs].
    now apply negb_true_iff in Hs.
  - intros Hone. exists (Z.of_nat (List.length (statements db))).
    split; [reflexivity|].
    rewrite count_unfold. unfold run, gets. cbn [fst]. rewrite Hst. f_equal.
    pose proof (filter_length_split (fun s => text s =? t) (statements db)).
    lia.
  - exact Hkeep.
  - intros s Hs Hne Hirt.
    exists (List.filter (fun x => text x =? text s)
                        (statements (exec (remove self t) db))).
    exists (List.filter is_reply (statements (exec (remove self t) db))).
    split; [apply filter_by_text|]. split.
    + apply filter_In. split; [now apply Hkeep | apply String.eqb_refl].
    + split; [apply get_response_statements_spec|].
      apply filter_In. split; [now apply Hkeep|].
      unfold is_reply. now rewrite Hirt.
Qed.

Lemma remove_deletes_statements_of_text_witness :
  pk_unique chain_store /\
  run (remove adapter "A") chain_store = Ok tt /\
  map text (statements (exec (remove adapter "A") chain_store)) = ["B"; "C"] /\
  run (filter adapter [("text", VStr "A")]) (exec (remove adapter "A") chain_store)
  = Ok [] /\
  (exists n,
      run (count adapter) chain_store = Ok n /\
      run (count adapter) (exec (remove adapter "A") chain_store)
      = Ok (n - 1)%Z) /\
  In (mkStatement 2 "B" "test" (Some "A") "" 2)
     (statements (exec (remove adapter "A") chain_store)).
Proof.
  assert (Hnd : pk_unique chain_store).
  { unfold pk_unique. simpl. repeat constructor; simpl; intuition discriminate. }
  destruct (remove_deletes_statements_of_text adapter "A" chain_store Hnd)
    as (H1 & H2 & H3 & H4 & H5 & _).
  split; [exact Hnd|]. split; [exact H1|]. split; [now rewrite H2|].
  split; [exact H3|]. split; [apply H4; reflexivity|].
  apply H5; [simpl; tauto | discriminate].
Defined.

(* ================================================================= *)
(** ** The stores the adapter builds *)

Lemma NoDup_map_filter {A B} (f : A -> B) (p : A -> bool) (l : list A) :
  NoDup (map f l) -> NoDup (map f (List.filter p l)).
Proof.
  induction l as [|x l IH]; simpl; intros Hnd; [constructor|].
  apply NoDup_cons_iff in Hnd. destruct Hnd as [Hx Hnd].
  destruct (p x); simpl; [|now apply IH].
  constructor; [|now apply IH].
  intros Hin. apply Hx. apply in_map_iff in Hin.
  destruct Hin as (y & Hy & Hin). apply filter_In in Hin.
  apply in_map_iff. exists y. tauto.
Qed.

Lemma delete_well_formed (rows : list Statement) (db : DB) :
  well_formed db -> well_formed (delete_statements rows db).
Proof.
  intros [Hnd Hlt]. split.
  - unfold pk_unique, delete_statements. cbn [statements].
    now apply NoDup_map_filter.
  - intros s Hs. unfold delete_statements in Hs. cbn [statements] in Hs.
    apply filter_In in Hs. now apply Hlt.
Qed.

Lemma update_well_formed (self : Self) (now : Z) (s : StatementObject)
    (db : DB) :
  well_formed db -> well_formed (exec (update self now s) db).
Proof.
  intros [Hnd Hlt]. unfold exec.
  destruct (update_creates_or_raises self now s db)
    as [(_ & _ & ->)|(row & -> & Hrow)]; [now split|].
  cbn [snd]. split.
  - unfold pk_unique. cbn [statements]. rewrite map_app. simpl.
    apply NoDup_snoc; [|exact Hnd].
    intros Hin. apply in_map_iff in Hin. destruct Hin as (old & Hpk & Hold).
    apply Hlt in Hold. subst row. simpl in Hpk. lia.
  - intros x Hx. cbn [statements next_pk] in *.
    apply in_app_or in Hx. destruct Hx as [Hx|[<-|[]]].
    + apply Hlt in Hx. lia.
    + subst row. simpl. lia.
Qed.

Lemma remove_well_formed (self : Self) (t : string) (db : DB) :
  well_formed db -> well_formed (exec (remove self t) db).
Proof.
  intros H. unfold exec. rewrite remove_unfold. cbn [snd].
  now apply delete_well_formed.
Qed.

Lemma drop_unfold (self : Self) (db : DB) :
  exec (drop self) db
  = let db' := delete_statements (statements db) db in
    mkDB (statements db') [] (next_pk db') (text_unique db').
Proof. reflexivity. Qed.

(** Every store the adapter builds has unique primary keys. *)
Lemma reachable_well_formed (db : DB) : reachable db -> well_formed db.
Proof.
  induction 1 as [unique|self now s db _ IH|self t db _ IH|self db _ IH].
  - split; [constructor|]. intros s [].
  - now apply update_well_formed.
  - now apply remove_well_formed.
  - rewrite drop_unfold. cbv zeta.
    destruct (delete_well_formed (statements db) db IH) as [Hnd Hlt].
    split; assumption.
Qed.


(* ================================================================= *)
(** ** Further properties of the adapter *)

(** *** What [filter] returns is stored *)

Lemma ordered_perm (ord : option ordering) (rows : list Statement) :
  Permutation (ordered ord rows) rows.
Proof.
  destruct ord as [[c|c|]|]; simpl; try apply sort_by_perm; reflexivity.
Qed.

Lemma order_by_where (order : value) (qs qs' : queryset) :
  order_by order qs = Ok qs' -> qs_where qs' = qs_where qs.
Proof.
  unfold order_by. destruct order; try discriminate.
  destruct (parse_order s) as [ord|e]; simpl; [|discriminate].
  intros H. now inversion H.
Qed.

Lemma evaluate_perm (db : DB) (qs : queryset) (rows : list Statement) :
  evaluate db qs = Ok rows -> Permutation rows (select db (qs_where qs)).
Proof.
  unfold evaluate. destruct (bind_parameters (qs_where qs)); simpl;
    [|discriminate].
  intros H. inversion H; subst. apply ordered_perm.
Qed.

Lemma evaluate_same_where (db : DB) (qs qs' : queryset)
    (rows : list Statement) :
  qs_where qs' = qs_where qs ->
  evaluate db qs' = Ok rows ->
  exists plain, evaluate db qs = Ok plain /\ Permutation rows plain.
Proof.
  intros Hw. unfold evaluate. rewrite Hw.
  destruct (bind_parameters (qs_where qs)); simpl; [|discriminate].
  intros H. inversion H; subst. eexists. split; [reflexivity|].
  rewrite ordered_perm. symmetry. apply ordered_perm.
Qed.

Lemma filter_result_stored (kwargs : dict) (db : DB) (rows : list Statement) :
  filter_result kwargs db = Ok rows ->
  forall s, In s rows -> In s (statements db).
Proof.
  unfold filter_result.
  destruct (translate (snd (pop "order_by" VNone kwargs))) as [q|e];
    simpl; [|discriminate].
  destruct (objects_filter q) as [qs|e]; simpl; [|discriminate].
  destruct (if truthy (fst (pop "order_by" VNone kwargs))
            then order_by (fst (pop "order_by" VNone kwargs)) qs
            else Ok qs) as [qs'|e]; simpl; [|discriminate].
  intros Hev s Hs.
  apply (Permutation_in s (evaluate_perm _ _ _ Hev)) in Hs.
  unfold select in Hs. now apply filter_In in Hs.
Qed.

(** X1. Whatever the criteria and the ordering, every row [filter] returns
    is a stored statement. *)
Theorem filter_returns_stored_statements
    (self : Self) (kwargs : dict) (db : DB) (rows : list Statement) :
  run (filter self kwargs) db = Ok rows ->
  forall s, In s rows -> In s (statements db).
Proof. rewrite run_filter. apply filter_result_stored. Qed.

Lemma filter_returns_stored_statements_witness :
  In (mkStatement 1 "X" "c" None "" 1) (statements pair_store).
Proof.
  apply (filter_returns_stored_statements adapter
           [("order_by", VStr "-text"); ("conversation", VStr "c")]
           pair_store
           [mkStatement 2 "Y" "c" (Some "X") "" 2;
            mkStatement 1 "X" "c" None "" 1]).
  - reflexivity.
  - simpl. tauto.
Defined.

(** *** [order_by] *)

Lemma pop_order_by (o : value) (kw : dict) :
  ~ In "order_by" (keys kw) ->
  pop "order_by" VNone (("order_by", o) :: kw) = (o, kw) /\
  pop "order_by" VNone kw = (VNone, kw).
Proof.
  intros H. unfold pop. rewrite get_head, del_head.
  now rewrite del_absent, get_absent.
Qed.

(** X2. Ordering only permutes: when [filter] with an [order_by] returns,
    [filter] with the same criteria and no [order_by] returns the same
    statements, each as many times; and an [order_by] that is false in
    Python (None, the empty string) changes nothing at all. *)
Theorem order_by_only_permutes
    (self : Self) (order : value) (kw : dict) (db : DB) :
  ~ In "order_by" (keys kw) ->
  (forall rows,
      run (filter self (("order_by", order) :: kw)) db = Ok rows ->
      exists plain,
        run (filter self kw) db = Ok plain /\ Permutation rows plain) /\
  (truthy order = false ->
   run (filter self (("order_by", order) :: kw)) db = run (filter self kw) db).
Proof.
  intros Hk. destruct (pop_order_by order kw Hk) as [Hpop Hpop0].
  rewrite !run_filter. unfold filter_result. rewrite Hpop, Hpop0.
  cbn [fst snd truthy].
  destruct (translate kw) as [q|e]; simpl; [|split; [discriminate|reflexivity]].
  destruct (objects_filter q) as [qs|e]; simpl;
    [|split; [discriminate|reflexivity]].
  split.
  - intros rows. destruct (truthy order).
    + destruct (order_by order qs) as [qs'|e] eqn:Hord; simpl; [|discriminate].
      apply evaluate_same_where. now apply order_by_where in Hord.
    + simpl. intros H. now exists rows.
  - now intros ->.
Qed.

Lemma order_by_only_permutes_witness :
  (exists plain,
      run (filter adapter [("conversation", VStr "test")]) chain_store
      = Ok plain /\
      Permutation
        [mkStatement 3 "C" "test" (Some "B") "" 3;
         mkStatement 2 "B" "test" (Some "A") "" 2;
         mkStatement 1 "A" "test" None "" 1] plain) /\
  run (filter adapter [("order_by", VStr ""); ("conversation", VStr "test")])
      chain_store
  = run (filter adapter [("conversation", VStr "test")]) chain_store.
Proof.
  assert (Hk : ~ In "order_by" (keys [("conversation", VStr "test")])).
  { simpl. intuition discriminate. }
  split.
  - apply (proj1 (order_by_only_permutes adapter (VStr "-text")
                    [("conversation", VStr "test")] chain_store Hk)).
    reflexivity.
  - apply (proj2 (order_by_only_permutes adapter (VStr "")
                    [("conversation", VStr "test")] chain_store Hk)).
    reflexivity.
Defined.

(** *** [drop] *)

Lemma delete_all_statements (db : DB) :
  statements (delete_statements (statements db) db) = [].
Proof.
  unfold delete_statements. cbn [statements]. apply filter_none.
  intros s Hs. apply negb_false_iff. apply existsb_exists.
  exists (pk s). split; [now apply in_map | apply Z.eqb_refl].
Qed.

Lemma delete_nothing (db : DB) : delete_statements [] db = db.
Proof.
  destruct db as [st tg n u]. unfold delete_statements. simpl.
  f_equal; now apply filter_all.
Qed.

(** X3. After [drop] nothing is stored: no statement and no tag; [count]
    is 0, [filter] returns the empty sequence for every criteria it
    accepts, [get_random] returns null and [get_response_statements] is
    empty; and a second [drop] changes nothing more. *)
Theorem drop_empties_the_store (self : Self) (db : DB) :
  run (drop self) db = Ok tt /\
  statements (exec (drop self) db) = [] /\
  tags (exec (drop self) db) = [] /\
  run (count self) (exec (drop self) db) = Ok 0%Z /\
  (forall kwargs rows,
      run (filter self kwargs) (exec (drop self) db) = Ok rows -> rows = []) /\
  (forall choice,
      run (get_random self choice) (exec (drop self) db) = Ok None) /\
  run (get_response_statements self) (exec (drop self) db) = Ok [] /\
  exec (drop self) (exec (drop self) db) = exec (drop self) db.
Proof.
  assert (Hst : statements (exec (drop self) db) = []).
  { rewrite drop_unfold. cbv zeta. cbn [statements]. apply delete_all_statements. }
  split; [reflexivity|]. split; [exact Hst|]. split; [reflexivity|].
  split; [|split; [|split; [|split]]].
  - rewrite count_unfold. unfold run, gets. cbn [fst]. now rewrite Hst.
  - intros kwargs rows Hrows. destruct rows as [|s rows]; [reflexivity|].
    exfalso.
    pose proof (filter_result_stored kwargs (exec (drop self) db) (s :: rows)) as H.
    rewrite <- run_filter with (self := self) in H.
    specialize (H Hrows s (or_introl eq_refl)). now rewrite Hst in H.
  - intros choice. rewrite get_random_unfold. unfold run, gets. cbn [fst].
    now rewrite Hst.
  - rewrite get_response_statements_spec. now rewrite Hst.
  - rewrite (drop_unfold self (exec (drop self) db)). cbv zeta.
    rewrite Hst, delete_nothing.
    destruct (exec (drop self) db) as [st tg n u] eqn:Hdb.
    simpl in Hst. subst st.
    assert (Htg : tags (exec (drop self) db) = []) by reflexivity.
    rewrite Hdb in Htg. simpl in Htg. now subst tg.
Qed.

Lemma drop_empties_the_store_witness :
  run (count adapter) (exec (drop adapter) pair_store) = Ok 0%Z /\
  forall rows,
    run (filter adapter [("conversation", VStr "c")])
        (exec (drop adapter) pair_store) = Ok rows ->
    rows = [].
Proof.
  destruct (drop_empties_the_store adapter pair_store)
    as (_ & _ & _ & Hcount & Hfilter & _).
  split; [exact Hcount|]. intros rows. apply Hfilter.
Defined.

(** *** [update] and the records already stored *)

(** X4. [update] never touches what is stored: afterwards the stored
    statements are the old ones, in order and unchanged, followed by at
    most one new record; the tags are as before; and [filter] on any
    other text returns what it returned before. *)
Theorem update_keeps_stored_records
    (self : Self) (now : Z) (s : StatementObject) (db : DB) :
  (exists added,
      statements (exec (update self now s) db) = statements db ++ added /\
      (List.length added <= 1)%nat) /\
  tags (exec (update self now s) db) = tags db /\
  forall t,
    t <> o_text s ->
    run (filter self [("text", VStr t)]) (exec (update self now s) db)
    = run (filter self [("text", VStr t)]) db.
Proof.
  unfold exec.
  destruct (update_creates_or_raises self now s db)
    as [(_ & _ & ->)|(row & -> & Hrow)]; cbn [snd statements tags].
  - split; [exists []; split; [now rewrite app_nil_r | simpl; lia]|].
    repeat split.
  - split; [exists [row]; split; [reflexivity | simpl; lia]|].
    split; [reflexivity|].
    intros t Ht. rewrite !filter_by_text. cbn [statements].
    rewrite filter_app. simpl.
    replace (text row =? t) with false; [now rewrite app_nil_r|].
    symmetry. apply String.eqb_neq. subst row. simpl. congruence.
Qed.

Lemma update_keeps_stored_records_witness :
  run (filter adapter [("text", VStr "A")])
      (exec (update adapter 9 (statement "D" "test" (Some "C"))) chain_store)
  = run (filter adapter [("text", VStr "A")]) chain_store.
Proof.
  destruct (update_keeps_stored_records adapter 9
              (statement "D" "test" (Some "C")) chain_store) as (_ & _ & H).
  apply H. discriminate.
Defined.

(** *** [remove] *)

Lemma remove_absent (self : Self) (t : string) (db : DB) :
  (forall s, In s (statements db) -> text s <> t) ->
  remove self t db = (Ok tt, db).
Proof.
  intros Habs. rewrite remove_unfold.
  rewrite (filter_none (fun s => text s =? t)).
  - now rewrite delete_nothing.
  - intros s Hs. apply String.eqb_neq. now apply Habs.
Qed.

Lemma remove_leaves_no_such_text (self : Self) (t : string) (db : DB) :
  forall s, In s (statements (exec (remove self t) db)) -> text s <> t.
Proof.
  intros s Hs Ht. unfold exec in Hs. rewrite remove_unfold in Hs.
  cbn [snd] in Hs. unfold delete_statements in Hs. cbn [statements] in Hs.
  apply filter_In in Hs. destruct Hs as [Hs Hdead].
  apply negb_true_iff in Hdead.
  assert (Hex : existsb (Z.eqb (pk s))
                  (map pk (List.filter (fun x => text x =? t) (statements db)))
                = true).
  { apply existsb_exists. exists (pk s). split; [|apply Z.eqb_refl].
    apply in_map. apply filter_In. split; [assumption|].
    now apply String.eqb_eq. }
  congruence.
Qed.

(** X5. [remove] of a text that no stored statement has is not an error
    and changes nothing. *)
Theorem remove_of_absent_text_is_a_noop (self : Self) (t : string) (db : DB) :
  (forall s, In s (statements db) -> text s <> t) ->
  run (remove self t) db = Ok tt /\ exec (remove self t) db = db.
Proof.
  intros Habs. unfold run, exec. now rewrite remove_absent.
Qed.

Lemma remove_of_absent_text_is_a_noop_witness :
  run (remove adapter "Z") chain_store = Ok tt /\
  exec (remove adapter "Z") chain_store = chain_store.
Proof.
  apply remove_of_absent_text_is_a_noop.
  intros s [<-|[<-|[<-|[]]]]; discriminate.
Defined.

(** X6. [remove] is idempotent, on every store: once it has run, no stored
    statement has the text, and running it again changes nothing. *)
Theorem remove_is_idempotent (self : Self) (t : string) (db : DB) :
  (forall s, In s (statements (exec (remove self t) db)) -> text s <> t) /\
  exec (remove self t) (exec (remove self t) db) = exec (remove self t) db.
Proof.
  split; [apply remove_leaves_no_such_text|].
  unfold exec at 1. rewrite remove_absent; [reflexivity|].
  apply remove_leaves_no_such_text.
Qed.

Lemma remove_is_idempotent_witness :
  text (mkStatement 2 "B" "test" (Some "A") "" 2) <> "A" /\
  exec (remove adapter "A") (exec (remove adapter "A") chain_store)
  = exec (remove adapter "A") chain_store.
Proof.
  destruct (remove_is_idempotent adapter "A" chain_store) as [Hno Hidem].
  split; [|exact Hidem]. apply Hno. simpl. now left.
Defined.



(** *** The renaming loop on any dictionary *)

Lemma get_present (k : string) (d : dict) :
  In k (keys d) -> exists v, get k d = Some v.
Proof.
  induction d as [|[k' v'] d IH]; simpl; intros H; [destruct H|].
  destruct (String.eqb_spec k' k) as [->|Hne]; [now exists v'|].
  apply IH. destruct H; [contradiction|assumption].
Qed.

Lemma keys_del (k x : string) (d : dict) :
  In x (keys (del k d)) <-> In x (keys d) /\ x <> k.
Proof.
  unfold keys, del. rewrite !in_map_iff. split.
  - intros ([k' v'] & <- & Hin). apply filter_In in Hin. simpl in *.
    destruct Hin as [Hin Hne]. apply negb_true_iff in Hne.
    apply String.eqb_neq in Hne. split; [|assumption].
    now exists (k', v').
  - intros (([k' v'] & <- & Hin) & Hne). exists (k', v'). split; [reflexivity|].
    apply filter_In. split; [assumption|]. simpl.
    apply negb_true_iff. now apply String.eqb_neq.
Qed.

Lemma keys_set (k x : string) (v : value) (d : dict) :
  In x (keys (set k v d)) <-> x = k \/ In x (keys d).
Proof.
  induction d as [|[k' v'] d IH]; simpl.
  - intuition.
  - destruct (String.eqb_spec k' k) as [->|Hne]; simpl.
    + intuition.
    + rewrite IH. intuition.
Qed.

Lemma rename_loop_total (P : string -> Prop) (ks : list string) :
  forall d : dict,
    NoDup ks ->
    (forall k, In k ks -> In k (keys d)) ->
    (forall k, In k (keys d) -> In k ks \/ P k) ->
    (forall k, In k ks -> P (native_key k)) ->
    exists d', rename_loop ks d = Ok d' /\ forall k, In k (keys d') -> P k.
Proof.
  induction ks as [|k ks IH]; intros d Hnd Hin Hkeys HP.
  - exists d. split; [reflexivity|]. intros k Hk.
    destruct (Hkeys k Hk) as [[]|H]; exact H.
  - apply NoDup_cons_iff in Hnd. destruct Hnd as [Hk Hnd].
    destruct (get_present k d (Hin k (or_introl eq_refl))) as (v & Hget).
    simpl. unfold rename_step. rewrite Hget. simpl. fold (native_key k).
    apply IH; [assumption| | |].
    + intros k' Hk'. apply keys_set. right. apply keys_del. split.
      * apply Hin. now right.
      * intros ->. contradiction.
    + intros x Hx. apply keys_set in Hx. destruct Hx as [->|Hx].
      * right. apply HP. now left.
      * apply keys_del in Hx. destruct Hx as [Hx Hne].
        destruct (Hkeys x Hx) as [[Heq|Hks]|Hp]; [congruence|now left|now right].
    + intros k' Hk'. apply HP. now right.
Qed.

(** X8. On a dictionary (distinct keys) the renaming loop of [filter]
    never raises [KeyError], whatever the keys are, and every key it
    leaves is the renamed form of a key the caller gave. *)
Theorem renaming_never_raises (kwargs : dict) :
  NoDup (keys kwargs) ->
  exists renamed,
    rename_keys kwargs = Ok renamed /\
    forall k, In k (keys renamed) -> In k (map native_key (keys kwargs)).
Proof.
  intros Hnd. unfold rename_keys.
  apply (rename_loop_total (fun k => In k (map native_key (keys kwargs))));
    auto.
  intros k Hk. now apply in_map.
Qed.

Lemma renaming_never_raises_witness :
  exists renamed,
    rename_keys [("in_response_toin_response_to", VNone);
                 ("in_response_toin_response", VInt 1);
                 ("in_response_to_to", VInt 2); ("in_response_to", VInt 3)]
    = Ok renamed /\
    forall k,
      In k (keys renamed) ->
      In k (map native_key
              (keys [("in_response_toin_response_to", VNone);
                     ("in_response_toin_response", VInt 1);
                     ("in_response_to_to", VInt 2); ("in_response_to", VInt 3)])).
Proof.
  apply renaming_never_raises.
  repeat constructor; simpl; intuition discriminate.
Defined.

(** *** The values of [in_response_to] *)

(** X9. When the caller gives both spellings at once, the value under
    [in_response_to] is the one used and the value under [in_response] is
    dropped, in whichever order the two were given. *)
Theorem in_response_to_spelling_wins (self : Self) (a b : value) (db : DB) :
  run (filter self [("in_response_to", a); ("in_response", b)]) db
  = run (filter self [("in_response_to", a)]) db /\
  run (filter self [("in_response", b); ("in_response_to", a)]) db
  = run (filter self [("in_response_to", a)]) db.
Proof. rewrite !run_filter. split; reflexivity. Qed.

(** X10. [filter] never returns when its criteria are the key
    [in_response_to] alone, in either spelling: a value that is false in
    Python, or that can be iterated, reaches the query under a name that
    is no field of the statement and raises [FieldError]; a true value
    that cannot be iterated raises [TypeError] before the query. The store
    is left as it is. *)
Theorem in_response_to_criterion_always_raises
    (self : Self) (v : value) (db : DB) :
  (truthy v = false ->
   run (filter self [("in_response_to", v)]) db = Raise FieldError) /\
  (forall items,
      iterate v = Ok items ->
      run (filter self [("in_response_to", v)]) db = Raise FieldError) /\
  (truthy v = true -> iterate v = Raise TypeError ->
   run (filter self [("in_response_to", v)]) db = Raise TypeError) /\
  (forall rows, run (filter self [("in_response_to", v)]) db <> Ok rows) /\
  run (filter self [("in_response", v)]) db
  = run (filter self [("in_response_to", v)]) db /\
  exec (filter self [("in_response_to", v)]) db = db.
Proof.
  assert (Hrun : run (filter self [("in_response_to", v)]) db
                 = if truthy v
                   then match iterate v with
                        | Ok _ => Raise FieldError
                        | Raise e => Raise e
                        end
                   else Raise FieldError).
  { rewrite run_filter, filter_in_response_to, translate_in_response_to.
    destruct (truthy v); [|reflexivity].
    destruct (iterate v) as [items|e]; reflexivity. }
  split; [|split; [|split; [|split; [|split]]]].
  - intros Hv. now rewrite Hrun, Hv.
  - intros items Hit. rewrite Hrun, Hit. now destruct (truthy v).
  - intros Hv Hit. now rewrite Hrun, Hv, Hit.
  - intros rows. rewrite Hrun.
    destruct (truthy v); [|discriminate].
    destruct (iterate v); discriminate.
  - rewrite !run_filter. reflexivity.
  - apply exec_filter.
Qed.

Lemma in_response_to_criterion_always_raises_witness :
  run (filter adapter [("in_response_to", VStr "")]) yes_store = Raise FieldError /\
  run (filter adapter [("in_response_to", VList ["Yes"; "No"])]) yes_store
  = Raise FieldError /\
  run (filter adapter [("in_response_to", VInt 3)]) yes_store = Raise TypeError.
Proof.
  split; [|split].
  - apply (proj1 (in_response_to_criterion_always_raises adapter (VStr "") yes_store)).
    reflexivity.
  - destruct (in_response_to_criterion_always_raises adapter
                (VList ["Yes"; "No"]) yes_store) as (_ & H & _).
    apply (H ["Yes"; "No"]). reflexivity.
  - destruct (in_response_to_criterion_always_raises adapter (VInt 3) yes_store)
      as (_ & _ & H & _).
    apply H; reflexivity.
Defined.

(** X12. A true value of [in_response_to] that cannot be iterated (a
    non-zero integer, True) makes [filter] raise [TypeError], on every
    store, and the store is left as it is. *)
Theorem non_iterable_in_response_to_raises (self : Self) (db : DB) :
  (forall z, z <> 0%Z ->
             run (filter self [("in_response_to", VInt z)]) db
             = Raise TypeError) /\
  run (filter self [("in_response_to", VBool true)]) db = Raise TypeError /\
  forall v, exec (filter self [("in_response_to", v)]) db = db.
Proof.
  split; [|split].
  - intros z Hz. rewrite run_filter, filter_in_response_to.
    rewrite translate_in_response_to. simpl.
    apply Z.eqb_neq in Hz. now rewrite Hz.
  - rewrite run_filter. reflexivity.
  - intros v. apply exec_filter.
Qed.

Lemma non_iterable_in_response_to_raises_witness :
  run (filter adapter [("in_response_to", VInt 7)]) pair_store = Raise TypeError.
Proof.
  apply (proj1 (non_iterable_in_response_to_raises adapter pair_store)).
  discriminate.
Defined.

(** *** [get_random] *)

(** X15. On a store that holds a statement, [get_random] never returns
    null: it returns a stored statement, and every stored statement is
    returned for some draw. It returns null exactly when [count] is 0. *)
Theorem get_random_returns_a_stored_statement (self : Self) (db : DB) :
  (statements db <> [] ->
   forall choice,
     exists s,
       run (get_random self choice) db = Ok (Some s) /\
       In s (statements db)) /\
  (forall s, In s (statements db) ->
             exists choice, run (get_random self choice) db = Ok (Some s)) /\
  (forall choice,
      run (get_random self choice) db = Ok None <->
      run (count self) db = Ok 0%Z).
Proof.
  assert (Hc : run (count self) db
               = Ok (Z.of_nat (List.length (statements db)))) by reflexivity.
  assert (Hr : forall choice,
             run (get_random self choice) db
             = Ok (random_first choice (statements db))) by reflexivity.
  rewrite Hc. setoid_rewrite Hr. clear Hc Hr. unfold random_first.
  destruct (statements db) as [|x l] eqn:Hst.
  - split; [congruence|]. split; [intros s []|]. intros _. split; reflexivity.
  - assert (Hlen : List.length (x :: l) <> 0%nat) by (simpl; lia).
    split; [|split].
    + intros _ choice.
      pose proof (Nat.mod_upper_bound choice _ Hlen) as Hlt.
      destruct (nth_error (x :: l) (choice mod List.length (x :: l)))
        as [s|] eqn:Hnth.
      * exists s. split; [reflexivity|]. now apply nth_error_In in Hnth.
      * apply nth_error_None in Hnth. lia.
    + intros s Hs. apply In_nth_error in Hs. destruct Hs as (n & Hn).
      exists n. rewrite Nat.mod_small; [now rewrite Hn|].
      apply nth_error_Some. congruence.
    + intros choice.
      pose proof (Nat.mod_upper_bound choice _ Hlen) as Hlt.
      split.
      * intros H. inversion H as [Hnth].
        apply nth_error_None in Hnth. simpl in *. lia.
      * intros H. exfalso. assert (Hz : Z.of_nat (List.length (x :: l)) = 0%Z)
          by congruence. simpl in Hz. lia.
Qed.

Lemma get_random_returns_a_stored_statement_witness :
  (exists s,
      run (get_random adapter 7) chain_store = Ok (Some s) /\
      In s (statements chain_store)) /\
  exists choice,
    run (get_random adapter choice) chain_store
    = Ok (Some (mkStatement 3 "C" "test" (Some "B") "" 3)).
Proof.
  destruct (get_random_returns_a_stored_statement adapter chain_store)
    as (Hsome & Hall & _).
  split.
  - apply Hsome. discriminate.
  - apply Hall. simpl. tauto.
Defined.

(** *** [get_latest_response] on any store *)

Lemma length_append (a b : string) :
  String.length (a ++ b) = (String.length a + String.length b)%nat.
Proof. induction a as [|c a IH]; simpl; [reflexivity|now rewrite IH]. Qed.

Lemma append_suffix_injective (a b suffix : string) :
  (a ++ suffix)%string = (b ++ suffix)%string -> a = b.
Proof.
  revert b. induction a as [|c a IH]; intros [|d b] H; simpl in H.
  - reflexivity.
  - exfalso. apply (f_equal String.length) in H. simpl in H.
    rewrite length_append in H. lia.
  - exfalso. apply (f_equal String.length) in H. simpl in H.
    rewrite length_append in H. lia.
  - injection H as -> H. f_equal. now apply IH.
Qed.

(** X16. [get_latest_response] raises [AttributeError] on every store and
    for every conversation, and leaves the store as it is: the adapter is
    asked for the model "response" and defines only the models
    "statement" and "tag", under any spelling of their case. *)
Theorem get_latest_response_always_raises
    (self : Self) (conversation : string) (db : DB) :
  run (get_latest_response self conversation) db = Raise AttributeError /\
  exec (get_latest_response self conversation) db = db /\
  forall name,
    (exists m, get_model self name = Ok m) <->
    lower name = "statement" \/ lower name = "tag".
Proof.
  split; [reflexivity|]. split; [reflexivity|].
  intros name. unfold get_model.
  assert (Hiff : forall a b : string,
             (("get_" ++ a ++ "_model")%string =? ("get_" ++ b ++ "_model")%string)
             = (a =? b)).
  { intros a b. destruct (String.eqb_spec a b) as [->|Hne].
    - apply String.eqb_refl.
    - apply String.eqb_neq. intros Heq. apply Hne.
      cbn [append] in Heq. injection Heq as Heq.
      now apply append_suffix_injective in Heq. }
  change "get_statement_model" with ("get_" ++ "statement" ++ "_model")%string.
  change "get_tag_model" with ("get_" ++ "tag" ++ "_model")%string.
  rewrite !Hiff.
  destruct (String.eqb_spec (lower name) "statement") as [Hs|Hs].
  - split; [now left | now exists StatementModel].
  - destruct (String.eqb_spec (lower name) "tag") as [Ht|Ht].
    + split; [now right | now exists TagModel].
    + split; [intros (m & Hm); discriminate | tauto].
Qed.

(** *** [count] and the other reads *)

(** X17. [count] is the number of statements [filter] returns when it is
    given no criteria, and the statements [get_response_statements]
    returns are among them. *)
Theorem count_agrees_with_filter (self : Self) (db : DB) :
  exists rows replies,
    run (filter self []) db = Ok rows /\
    run (count self) db = Ok (Z.of_nat (List.length rows)) /\
    run (get_response_statements self) db = Ok replies /\
    (forall s, In s replies -> In s rows) /\
    (List.length replies <= List.length rows)%nat.
Proof.
  exists (statements db), (List.filter is_reply (statements db)).
  split; [apply filter_no_criteria|]. split; [reflexivity|].
  split; [apply get_response_statements_spec|]. split.
  - intros s Hs. now apply filter_In in Hs.
  - apply filter_length_le.
Qed.

Lemma count_agrees_with_filter_witness :
  exists rows replies,
    run (filter adapter []) chain_store = Ok rows /\
    run (count adapter) chain_store = Ok (Z.of_nat (List.length rows)) /\
    run (get_response_statements adapter) chain_store = Ok replies /\
    (forall s, In s replies -> In s rows) /\
    (List.length replies <= List.length rows)%nat.
Proof. apply (count_agrees_with_filter adapter chain_store). Defined.



(** *** The primary keys *)

(** X20. [update], [remove] and [drop] keep the primary keys of the stored
    statements distinct and below the next key of the sequence; so every
    store built from an empty one has primary keys that identify its
    rows. *)
Theorem writes_keep_primary_keys_unique (self : Self) (db : DB) :
  well_formed db ->
  (forall now s, well_formed (exec (update self now s) db)) /\
  (forall t, well_formed (exec (remove self t) db)) /\
  well_formed (exec (drop self) db).
Proof.
  intros Hwf. split; [|split].
  - intros now s. now apply update_well_formed.
  - intros t. now apply remove_well_formed.
  - rewrite drop_unfold. cbv zeta.
    destruct (delete_well_formed (statements db) db Hwf) as [Hnd Hlt].
    split; assumption.
Qed.

Lemma writes_keep_primary_keys_unique_witness :
  well_formed (exec (update adapter 9 (statement "A" "other" None)) chain_store) /\
  well_formed (exec (remove adapter "B") chain_store) /\
  well_formed (exec (drop adapter) chain_store).
Proof.
  assert (Hwf : well_formed chain_store).
  { split.
    - unfold pk_unique. simpl. repeat constructor; simpl; intuition discriminate.
    - intros x [<-|[<-|[<-|[]]]]; reflexivity. }
  destruct (writes_keep_primary_keys_unique adapter chain_store Hwf)
    as (Hu & Hr & Hd).
  split; [apply Hu|]. split; [apply Hr | exact Hd].
Defined.

Lemma get_latest_response_always_raises_witness :
  (exists m, get_model adapter "Tag" = Ok m) /\
  run (get_latest_response adapter "test") chain_store = Raise AttributeError.
Proof.
  destruct (get_latest_response_always_raises adapter "test" chain_store)
    as (Hrun & _ & Hmodels).
  split; [|exact Hrun]. apply Hmodels. now right.
Defined.

(** *** [filter] on the text fields *)

(** X21. For every store and every criteria map over the text fields of
    the statement itself ([text], [conversation], [extra_data]), [filter]
    returns exactly the statements that satisfy all of the criteria; with
    an empty criteria map it returns every stored statement; and when
    [order_by] names a field the result is these statements in ascending
    order of that field. *)
Theorem filter_field_criteria_conjunction
    (self : Self) (db : DB) (cs : list criterion) :
  NoDup (keys (map criterion_kwarg cs)) ->
  run (filter self (map criterion_kwarg cs)) db = Ok (satisfying cs db) /\
  (forall s,
      In s (satisfying cs db) <->
      In s (statements db) /\ forall c, In c cs -> satisfies s c = true) /\
  run (filter self []) db = Ok (statements db) /\
  forall c : column,
    exists rows,
      run (filter self (("order_by", VStr (column_name c))
                          :: map criterion_kwarg cs)) db = Ok rows /\
      ascending c rows /\
      Permutation rows (satisfying cs db).
Proof.
  intros Hnd. split; [|split; [|split]].
  - rewrite run_filter. now apply filter_criteria.
  - intros s. unfold satisfying. rewrite filter_In, forallb_forall. reflexivity.
  - apply filter_no_criteria.
  - intros c. exists (sort_by (column_leb c) (satisfying cs db)). split; [|split].
    + rewrite run_filter. now apply filter_criteria_ordered.
    + apply order_by_column_ascending.
    + apply sort_by_perm.
Qed.

Lemma filter_field_criteria_conjunction_witness :
  run (filter adapter [("text", VStr "B"); ("conversation", VStr "test")])
      chain_store
  = Ok [mkStatement 2 "B" "test" (Some "A") "" 2] /\
  run (filter adapter []) chain_store = Ok (statements chain_store) /\
  exists rows,
    run (filter adapter [("order_by", VStr "in_response_to");
                         ("conversation", VStr "test")]) chain_store
    = Ok rows /\
    ascending ColInResponseTo rows /\
    Permutation rows (statements chain_store).
Proof.
  destruct (filter_field_criteria_conjunction adapter chain_store
              [TextIs "B"; ConversationIs "test"]) as (H1 & _ & H2 & _).
  { repeat constructor; simpl; intuition discriminate. }
  destruct (filter_field_criteria_conjunction adapter chain_store
              [ConversationIs "test"]) as (_ & _ & _ & H3).
  { repeat constructor; simpl; intuition discriminate. }
  split; [exact H1|]. split; [exact H2|]. exact (H3 ColInResponseTo).
Defined.

(** X22. The renaming of the criteria keys preserves the result: a
    criteria map written with the [in_response_to] spelling of its keys
    gives the same result or the same exception, under any [order_by], as
    the map with the native [in_response] spelling, whenever that native
    map is a map (its keys are distinct) and is native (no key still holds
    [in_response_to]). *)
Theorem native_spelling_gives_the_same_result
    (self : Self) (db : DB) (kw : dict) (order : option value) :
  NoDup (map native_key (keys kw)) ->
  (forall k, In k (keys kw) -> native_key (native_key k) = native_key k) ->
  ~ In "order_by" (map native_key (keys kw)) ->
  translate kw = translate (native_spelling kw) /\
  run (filter self (with_order order kw)) db
  = run (filter self (with_order order (native_spelling kw))) db.
Proof.
  intros Hnd Hidem Hob. split.
  - now apply translate_native.
  - rewrite !run_filter. now apply filter_result_native.
Qed.

Lemma native_spelling_gives_the_same_result_witness :
  translate [("in_response_to", VList ["X"]);
             ("in_response_to__response__text", VStr "X"); ("text", VStr "Y")]
  = translate [("in_response", VList ["X"]);
               ("in_response__response__text", VStr "X"); ("text", VStr "Y")] /\
  run (filter adapter
         [("order_by", VStr "text"); ("in_response_to", VList ["X"]);
          ("in_response_to__response__text", VStr "X"); ("text", VStr "Y")])
      pair_store
  = run (filter adapter
           [("order_by", VStr "text"); ("in_response", VList ["X"]);
            ("in_response__response__text", VStr "X"); ("text", VStr "Y")])
        pair_store.
Proof.
  apply (native_spelling_gives_the_same_result adapter pair_store
           [("in_response_to", VList ["X"]);
            ("in_response_to__response__text", VStr "X"); ("text", VStr "Y")]
           (Some (VStr "text"))).
  - repeat constructor; simpl; intuition discriminate.
  - intros k [<-|[<-|[<-|[]]]]; reflexivity.
  - simpl. intuition discriminate.
Defined.

(** *** Not found *)

Lemma evaluate_data_independent (db0 db : DB) (qs : queryset)
    (rows0 : list Statement) :
  evaluate db0 qs = Ok rows0 -> exists rows, evaluate db qs = Ok rows.
Proof.
  unfold evaluate. destruct (bind_parameters (qs_where qs)); simpl;
    [|discriminate].
  intros _. eexists. reflexivity.
Qed.

(** Whether [filter] raises depends on the criteria only, not on what is
    stored. *)
Lemma filter_data_independent (kwargs : dict) (db0 db : DB)
    (rows0 : list Statement) :
  filter_result kwargs db0 = Ok rows0 ->
  exists rows, filter_result kwargs db = Ok rows.
Proof.
  unfold filter_result.
  destruct (translate (snd (pop "order_by" VNone kwargs))) as [q|e];
    simpl; [|discriminate].
  destruct (objects_filter q) as [qs|e]; simpl; [|discriminate].
  destruct (if truthy (fst (pop "order_by" VNone kwargs))
            then order_by (fst (pop "order_by" VNone kwargs)) qs
            else Ok qs) as [qs'|e]; simpl; [|discriminate].
  apply evaluate_data_independent.
Qed.

(** X23. [filter] with criteria on the text fields that no stored
    statement satisfies returns the empty sequence and does not raise; and,
    for any criteria, whether [filter] raises depends on the criteria only:
    if it returns on one store it returns on every store, so criteria that
    match nothing never make it raise. *)
Theorem filter_not_found_is_empty (self : Self) (db : DB) :
  (forall cs,
      NoDup (keys (map criterion_kwarg cs)) ->
      (forall s, In s (statements db) ->
                 exists c, In c cs /\ satisfies s c = false) ->
      run (filter self (map criterion_kwarg cs)) db = Ok []) /\
  (forall kwargs db0 rows0,
      run (filter self kwargs) db0 = Ok rows0 ->
      exists rows, run (filter self kwargs) db = Ok rows).
Proof.
  split.
  - intros cs Hnd Hnone. rewrite run_filter, filter_criteria by assumption.
    f_equal. unfold satisfying. apply filter_none. intros s Hs.
    destruct (Hnone s Hs) as (c & Hc & Hfalse).
    apply not_true_is_false. intros Hall.
    rewrite forallb_forall in Hall. rewrite (Hall c Hc) in Hfalse.
    discriminate.
  - intros kwargs db0 rows0. rewrite !run_filter.
    apply filter_data_independent.
Qed.

Lemma filter_not_found_is_empty_witness :
  run (filter adapter [("text", VStr "Non-existant")]) chain_store = Ok [] /\
  exists rows,
    run (filter adapter [("text__in", VList ["Maybe"]); ("id", VInt 7)])
        chain_store = Ok rows.
Proof.
  destruct (filter_not_found_is_empty adapter chain_store) as (Hfilter & Hany).
  split.
  - apply (Hfilter [TextIs "Non-existant"]).
    + repeat constructor; simpl; tauto.
    + intros s Hs. exists (TextIs "Non-existant"). split; [now left|].
      simpl in Hs. destruct Hs as [<-|[<-|[<-|[]]]]; reflexivity.
  - apply (Hany [("text__in", VList ["Maybe"]); ("id", VInt 7)] pair_store []).
    reflexivity.
Defined.

(* ================================================================= *)
(** ** Criteria on names that are no field of the statement *)









(* ================================================================= *)
(** ** A string as the value of [in_response_to] *)

Lemma concat_cons (x : string) (xs : list string) :
  String.concat "" (x :: xs) = (x ++ String.concat "" xs)%string.
Proof.
  destruct xs as [|y ys]; simpl; [|reflexivity].
  induction x as [|c x IH]; simpl; [reflexivity|]. now rewrite <- IH.
Qed.

Lemma code_points_concat (s : string) : String.concat "" (code_points s) = s.
Proof.
  induction s as [|c s IH]; [reflexivity|].
  cbn [code_points]. destruct (code_points s) as [|item items].
  - simpl in IH. now subst s.
  - rewrite concat_cons in IH.
    destruct (starts_with_continuation item).
    + rewrite concat_cons. simpl. now rewrite IH.
    + rewrite !concat_cons. simpl. now rewrite IH.
Qed.

Lemma code_points_characters (s : string) :
  Forall (fun item => is_character item = true) (code_points s) /\
  Forall (fun item => starts_with_continuation item = false)
         (tl (code_points s)).
Proof.
  induction s as [|c s [IH1 IH2]]; [split; constructor|].
  cbn [code_points]. destruct (code_points s) as [|item items].
  - split; repeat constructor.
  - inversion IH1 as [|? ? Hitem Hitems]; subst.
    destruct (starts_with_continuation item) eqn:Hstart.
    + split; [|exact IH2]. constructor; [|exact Hitems].
      destruct item as [|c' rest]; [discriminate|].
      simpl in *. now rewrite Hstart.
    + split.
      * constructor; [reflexivity|]. now constructor.
      * simpl. now constructor.
Qed.

Lemma code_points_ascii (s : string) :
  forallb is_ascii (list_ascii_of_string s) = true ->
  code_points s = map (fun c => String c EmptyString) (list_ascii_of_string s).
Proof.
  induction s as [|c s IH]; [reflexivity|].
  simpl. intros H. apply andb_true_iff in H. destruct H as [Hc Hs].
  rewrite (IH Hs). destruct s as [|c' s']; [reflexivity|].
  simpl in *. apply andb_true_iff in Hs. destruct Hs as [Hc' _].
  replace (is_continuation c') with false; [reflexivity|].
  destruct c' as [b0 b1 b2 b3 b4 b5 b6 b7]. simpl in *.
  apply negb_true_iff in Hc'. now subst b7.
Qed.

(** X11. A non-empty string given as [in_response_to] is taken character
    by character: [filter] makes the same query as with the list of the
    characters of the string, an inclusion test over them, and not a test
    against the string itself. The characters are the code points of the
    string: they concatenate to it, each is a first byte followed by
    continuation bytes only, none but the first begins with a continuation
    byte, and in an ASCII string each is one byte. *)
Theorem string_candidates_are_characters (s : string) :
  s <> "" ->
  translate [("in_response_to", VStr s)]
  = Ok (QAnd [("in_response__response__text__in", VList (code_points s))]) /\
  translate [("in_response_to", VStr s)]
  = translate [("in_response_to", VList (code_points s))] /\
  String.concat "" (code_points s) = s /\
  Forall (fun item => is_character item = true) (code_points s) /\
  Forall (fun item => starts_with_continuation item = false)
         (tl (code_points s)) /\
  (forallb is_ascii (list_ascii_of_string s) = true ->
   code_points s
   = map (fun c => String c EmptyString) (list_ascii_of_string s)) /\
  forall self db,
    run (filter self [("in_response_to", VStr s)]) db
    = run (filter self [("in_response_to", VList (code_points s))]) db.
Proof.
  intros Hs.
  assert (Ht : truthy (VStr s) = true).
  { simpl. apply negb_true_iff. now apply String.eqb_neq. }
  assert (Hl : truthy (VList (code_points s)) = true).
  { destruct s as [|c s']; [contradiction|]. cbn [code_points].
    destruct (code_points s') as [|item items]; [reflexivity|].
    now destruct (starts_with_continuation item). }
  assert (H1 : translate [("in_response_to", VStr s)]
               = Ok (QAnd [("in_response__response__text__in",
                            VList (code_points s))])).
  { rewrite translate_in_response_to, Ht. reflexivity. }
  assert (H2 : translate [("in_response_to", VList (code_points s))]
               = Ok (QAnd [("in_response__response__text__in",
                            VList (code_points s))])).
  { rewrite translate_in_response_to, Hl. reflexivity. }
  split; [exact H1|]. split; [now rewrite H1, H2|].
  split; [apply code_points_concat|].
  split; [apply code_points_characters|].
  split; [apply code_points_characters|].
  split; [apply code_points_ascii|].
  intros self db. rewrite !run_filter, !filter_in_response_to.
  now rewrite H1, H2.
Qed.

Lemma string_candidates_are_characters_witness :
  translate [("in_response_to", VStr "Yes")]
  = Ok (QAnd [("in_response__response__text__in", VList ["Y"; "e"; "s"])]).
Proof.
  destruct (string_candidates_are_characters "Yes") as [H _];
    [discriminate | exact H].
Defined.
